(** * libts: the sanitized Tailscale state snapshot ([GetState])

    A shallow embedding of package [libts] (the current variant of
    [state.go], together with the superseded variant kept next to it) and
    the properties of the snapshot it builds.

    Go values are modelled as follows.
    - [int64] is [Z]; additions wrap around ([add64]).
    - A Go [string] is a sequence of bytes: [string] (a list of 8-bit
      [ascii]).
    - A pointer that may be nil is an [option].
    - A Go [map] is a [gmap]; [range] over a map visits every entry once
      in an order the language leaves unspecified ([RangeOrder]).
    - A run of a function either returns or panics ([outcome]). *)

From Stdlib Require Import ZArith String Ascii List Permutation Sorted Lia.

From stdpp Require Import gmap strings list fin_maps sorting.

Local Open Scope string_scope.

Local Open Scope list_scope.

Local Open Scope Z_scope.

(** ** Go runtime: outcomes, errors, int64 *)

Inductive outcome (A : Type) : Type :=
  | Returns (a : A)
  | Panics (msg : string).

Arguments Returns {A} a.

Arguments Panics {A} msg.

(** The monad of runs that may panic; [x ← m; k] is sequencing. *)
#[global] Instance outcome_ret : MRet outcome := fun A a => Returns a.

#[global] Instance outcome_bind : MBind outcome := fun A B k m =>
  match m with
  | Returns a => k a
  | Panics msg => Panics msg
  end.

Definition nilDeref : string :=
  "runtime error: invalid memory address or nil pointer dereference".

Definition sliceBounds : string :=
  "runtime error: slice bounds out of range".

(** [error] values: [errorString] is what [fmt.Errorf] builds without
    [%w]; [wrapError] is what it builds with [%w] (the formatted message
    and the wrapped error). *)
Inductive GoError : Type :=
  | errorString (s : string)
  | wrapError (msg : string) (err : GoError).

Definition Error (e : GoError) : string :=
  match e with
  | errorString s => s
  | wrapError msg _ => msg
  end.

Definition Unwrap (e : GoError) : option GoError :=
  match e with
  | errorString _ => None
  | wrapError _ err => Some err
  end.

(** [fmt.Errorf(format + "%s", v)] and [fmt.Errorf(format + "%w", err)]. *)
Definition Errorf_s (format v : string) : GoError :=
  errorString (String.append format v).

Definition Errorf_w (format : string) (err : GoError) : GoError :=
  wrapError (String.append format (Error err)) err.

(** Two's-complement reduction to [int64] and the [+=] of the source. *)
Definition wrap64 (z : Z) : Z := (z + 2 ^ 63) mod 2 ^ 64 - 2 ^ 63.

Definition add64 (a b : Z) : Z := wrap64 (a + b).

(** ** Package [strings] *)

(** [strings.Compare]: bytewise lexicographic order, result -1, 0 or 1. *)
Definition strings_Compare (a b : string) : Z :=
  match String.compare a b with
  | Lt => -1
  | Eq => 0
  | Gt => 1
  end.

(** [strings.IndexByte]: index of the first byte [c] in [s], -1 if none. *)
Fixpoint IndexByte_from (s : string) (c : ascii) (i : Z) : Z :=
  match s with
  | EmptyString => -1
  | String a s' => if Ascii.eqb a c then i else IndexByte_from s' c (i + 1)
  end.

Definition strings_IndexByte (s : string) (c : ascii) : Z :=
  IndexByte_from s c 0.

(** The slice expression [s[:i]]; out of range it panics. *)
Definition slice_to (s : string) (i : Z) : outcome string :=
  if (0 <=? i) && (i <=? Z.of_nat (String.length s))
  then Returns (substring 0 (Z.to_nat i) s)
  else Panics sliceBounds.

(** ** Imported packages: the declarations [GetState] reads *)

Module key.

(** [key.NodePublic] and [key.NLPublic] wrap a [[32]byte]; the array is
    modelled as the 256-bit number it spells. *)
Abbreviation NodePublic := N (only parsing).

Abbreviation NLPublic := N (only parsing).

Definition IsZero (k : NLPublic) : bool := (k =? 0)%N.

End key.

Module tailcfg.

Abbreviation UserID := Z (only parsing).

Abbreviation StableNodeID := string (only parsing).

Record UserProfile : Type := {
  ID : UserID;
  LoginName : string;
  DisplayName : string;
  ProfilePicURL : string
}.

(** The zero value, as a map lookup of a missing key returns it. *)
Definition zero : UserProfile :=
  {| ID := 0; LoginName := ""; DisplayName := ""; ProfilePicURL := "" |}.

End tailcfg.

Module ipn.

Inductive State : Type :=
  | NoState
  | InUseOtherUser
  | NeedsLogin
  | NeedsMachineAuth
  | Stopped
  | Starting
  | Running.

Definition State_eqb (a b : State) : bool :=
  match a, b with
  | NoState, NoState | InUseOtherUser, InUseOtherUser
  | NeedsLogin, NeedsLogin | NeedsMachineAuth, NeedsMachineAuth
  | Stopped, Stopped | Starting, Starting | Running, Running => true
  | _, _ => false
  end.

(** The preferences are handed through untouched; only some of the
    fields are listed. *)
Record Prefs : Type := {
  ControlURL : string;
  RouteAll : bool;
  ExitNodeID : tailcfg.StableNodeID;
  CorpDNS : bool;
  WantRunning : bool;
  Hostname : string
}.

End ipn.

(** The structs of package [ipnstate], with the fields [GetState] and a
    display name may read.  A field keeps its Go name unless another
    struct of the package has the same one: [EID] and [EOnline] are
    [ExitNodeStatus.ID] and [ExitNodeStatus.Online], [ExitNodeStatus_] is
    [Status.ExitNodeStatus], [LPublicKey] is
    [NetworkLockStatus.PublicKey]. *)
Module ipnstate.

Record PeerStatus : Type := {
  ID : tailcfg.StableNodeID;
  PublicKey : key.NodePublic;
  HostName : string;
  DNSName : string;
  OS : string;
  UserID : tailcfg.UserID;
  Tags : option (list string);
  RxBytes : Z;
  TxBytes : Z;
  Online : bool;
  ExitNode : bool;
  ExitNodeOption : bool
}.

(** [func (ps *PeerStatus) IsTagged() bool]: the tag list is there and
    not empty. *)
Definition IsTagged (ps : PeerStatus) : bool :=
  match Tags ps with
  | Some (_ :: _) => true
  | _ => false
  end.

Record ExitNodeStatus : Type := {
  EID : tailcfg.StableNodeID;
  EOnline : bool;
  TailscaleIPs : list string
}.

(** [Peer] is a [map[key.NodePublic]*PeerStatus] and [User] a
    [map[tailcfg.UserID]tailcfg.UserProfile]. *)
Record Status : Type := {
  Version : string;
  BackendState : string;
  AuthURL : string;
  Self : option PeerStatus;
  ExitNodeStatus_ : option ExitNodeStatus;
  Peer : gmap N PeerStatus;
  User : gmap Z tailcfg.UserProfile
}.

Record NetworkLockStatus : Type := {
  Enabled : bool;
  LPublicKey : key.NLPublic;
  NodeKey : option key.NodePublic;
  NodeKeySigned : bool
}.

End ipnstate.

Abbreviation PeerStatus := ipnstate.PeerStatus.

(** ** [NewIPNStateFromString] *)

Definition NewIPNStateFromString (v : string) : ipn.State * option GoError :=
  if String.eqb v "NoState" then (ipn.NoState, None)
  else if String.eqb v "InUseOtherUser" then (ipn.InUseOtherUser, None)
  else if String.eqb v "NeedsLogin" then (ipn.NeedsLogin, None)
  else if String.eqb v "NeedsMachineAuth" then (ipn.NeedsMachineAuth, None)
  else if String.eqb v "Stopped" then (ipn.Stopped, None)
  else if String.eqb v "Starting" then (ipn.Starting, None)
  else if String.eqb v "Running" then (ipn.Running, None)
  else (ipn.NoState, Some (Errorf_s "unknown ipn state: " v)).

(** ** Package [slices] and the package's own [PeerName] *)

(** [slices.IsSortedFunc] and [slices.IsSorted] (at [string]) state what
    the two sorting functions establish: no element is less than the one
    before it. *)
Fixpoint isSortedBy {A} (less : A -> A -> bool) (x : list A) : bool :=
  match x with
  | a :: (b :: _) as tl => negb (less b a) && isSortedBy less tl
  | _ => true
  end.

Definition slices_IsSortedFunc {A} (x : list A) (cmp : A -> A -> Z) : bool :=
  isSortedBy (fun a b => cmp a b <? 0) x.

(** [a < b] on strings. *)
Definition string_less (a b : string) : bool :=
  match String.compare a b with
  | Lt => true
  | _ => false
  end.

Definition slices_IsSorted (x : list string) : bool :=
  isSortedBy string_less x.

(** What [slices.SortFunc] asks of its comparison: [cmp a b < 0] is a
    strict weak ordering. *)
Record StrictWeakOrdering {A} (cmp : A -> A -> Z) : Prop := {
  swo_irrefl : forall a, ~ cmp a a < 0;
  swo_trans : forall a b c, cmp a b < 0 -> cmp b c < 0 -> cmp a c < 0;
  swo_incomp : forall a b c,
    ~ cmp a b < 0 -> ~ cmp b c < 0 -> ~ cmp a c < 0
}.

(** The functions [GetState] calls that live outside the two source
    files.  [PeerName] is the display name of a peer, defined elsewhere in
    the package.  [slices.SortFunc] and [slices.Sort] are taken with the
    contract the standard library documents: the result is the argument
    rearranged, in ascending order; nothing is promised about the order of
    elements that compare equal. *)
Class Imports : Type := {
  PeerName : PeerStatus -> string;
  slices_SortFunc : forall {A}, list A -> (A -> A -> Z) -> list A;
  slices_SortFunc_perm : forall A (x : list A) cmp,
    slices_SortFunc x cmp ≡ₚ x;
  slices_SortFunc_sorted : forall A (x : list A) cmp,
    StrictWeakOrdering cmp ->
    slices_IsSortedFunc (slices_SortFunc x cmp) cmp = true;
  slices_Sort : list string -> list string;
  slices_Sort_perm : forall x, slices_Sort x ≡ₚ x;
  slices_Sort_sorted : forall x, slices_IsSorted (slices_Sort x) = true
}.

(** [range] over a map visits every entry once; the language leaves
    the order unspecified and the runtime varies it from one loop to the
    next.  A value of this type is the order one run of [GetState] happens
    to see in its loops over maps: over [status.Peer], over
    [state.OwnedNodes], and, in the superseded variant, over [status.Peer]
    a second time. *)
Record RangeOrder : Type := {
  rangePeer : gmap N PeerStatus -> list (N * PeerStatus);
  rangePeer_perm : forall m, rangePeer m ≡ₚ map_to_list m;
  rangePeerAgain : gmap N PeerStatus -> list (N * PeerStatus);
  rangePeerAgain_perm : forall m, rangePeerAgain m ≡ₚ map_to_list m;
  rangeOwnedNodes :
    gmap string (list PeerStatus) -> list (string * list PeerStatus);
  rangeOwnedNodes_perm : forall m, rangeOwnedNodes m ≡ₚ map_to_list m
}.

(** The result of one of the three calls to the daemon. *)
Inductive fetched (A : Type) : Type :=
  | Fetched (a : A)
  | FetchFailed (err : GoError).

Arguments Fetched {A} a.

Arguments FetchFailed {A} err.

(** ** [State] *)

Record State : Type := {
  Prefs : option ipn.Prefs;
  BackendState : ipn.State;
  TSVersion : string;
  AuthURL : string;
  User : option tailcfg.UserProfile;
  Self : option PeerStatus;
  LockKey : option key.NLPublic;
  IsLockedOut : bool;
  ExitNodes : list PeerStatus;
  MyNodes : list PeerStatus;
  TaggedNodes : list PeerStatus;
  OwnedNodeKeys : list string;
  OwnedNodes : gmap string (list PeerStatus);
  CurrentExitNode : option tailcfg.StableNodeID;
  CurrentExitNodeName : string;
  RxBytes : Z;
  TxBytes : Z
}.

(** [State{}] *)
Definition State_zero : State :=
  {| Prefs := None; BackendState := ipn.NoState; TSVersion := "";
     AuthURL := ""; User := None; Self := None; LockKey := None;
     IsLockedOut := false; ExitNodes := []; MyNodes := [];
     TaggedNodes := []; OwnedNodeKeys := []; OwnedNodes := ∅;
     CurrentExitNode := None; CurrentExitNodeName := "";
     RxBytes := 0; TxBytes := 0 |}.

(** Assignment to one field: [state.F = v]. *)
Definition set_TSVersion (state : State) (v : string) : State :=
  {| Prefs := Prefs state; BackendState := BackendState state;
     TSVersion := v; AuthURL := AuthURL state; User := User state;
     Self := Self state; LockKey := LockKey state;
     IsLockedOut := IsLockedOut state; ExitNodes := ExitNodes state;
     MyNodes := MyNodes state; TaggedNodes := TaggedNodes state;
     OwnedNodeKeys := OwnedNodeKeys state; OwnedNodes := OwnedNodes state;
     CurrentExitNode := CurrentExitNode state;
     CurrentExitNodeName := CurrentExitNodeName state;
     RxBytes := RxBytes state; TxBytes := TxBytes state |}.

Definition set_User (state : State) (v : option tailcfg.UserProfile) : State :=
  {| Prefs := Prefs state; BackendState := BackendState state;
     TSVersion := TSVersion state; AuthURL := AuthURL state; User := v;
     Self := Self state; LockKey := LockKey state;
     IsLockedOut := IsLockedOut state; ExitNodes := ExitNodes state;
     MyNodes := MyNodes state; TaggedNodes := TaggedNodes state;
     OwnedNodeKeys := OwnedNodeKeys state; OwnedNodes := OwnedNodes state;
     CurrentExitNode := CurrentExitNode state;
     CurrentExitNodeName := CurrentExitNodeName state;
     RxBytes := RxBytes state; TxBytes := TxBytes state |}.

Definition set_LockKey (state : State) (v : option key.NLPublic) : State :=
  {| Prefs := Prefs state; BackendState := BackendState state;
     TSVersion := TSVersion state; AuthURL := AuthURL state;
     User := User state; Self := Self state; LockKey := v;
     IsLockedOut := IsLockedOut state; ExitNodes := ExitNodes state;
     MyNodes := MyNodes state; TaggedNodes := TaggedNodes state;
     OwnedNodeKeys := OwnedNodeKeys state; OwnedNodes := OwnedNodes state;
     CurrentExitNode := CurrentExitNode state;
     CurrentExitNodeName := CurrentExitNodeName state;
     RxBytes := RxBytes state; TxBytes := TxBytes state |}.

Definition set_IsLockedOut (state : State) (v : bool) : State :=
  {| Prefs := Prefs state; BackendState := BackendState state;
     TSVersion := TSVersion state; AuthURL := AuthURL state;
     User := User state; Self := Self state; LockKey := LockKey state;
     IsLockedOut := v; ExitNodes := ExitNodes state;
     MyNodes := MyNodes state; TaggedNodes := TaggedNodes state;
     OwnedNodeKeys := OwnedNodeKeys state; OwnedNodes := OwnedNodes state;
     CurrentExitNode := CurrentExitNode state;
     CurrentExitNodeName := CurrentExitNodeName state;
     RxBytes := RxBytes state; TxBytes := TxBytes state |}.

Definition set_ExitNodes (state : State) (v : list PeerStatus) : State :=
  {| Prefs := Prefs state; BackendState := BackendState state;
     TSVersion := TSVersion state; AuthURL := AuthURL state;
     User := User state; Self := Self state; LockKey := LockKey state;
     IsLockedOut := IsLockedOut state; ExitNodes := v;
     MyNodes := MyNodes state; TaggedNodes := TaggedNodes state;
     OwnedNodeKeys := OwnedNodeKeys state; OwnedNodes := OwnedNodes state;
     CurrentExitNode := CurrentExitNode state;
     CurrentExitNodeName := CurrentExitNodeName state;
     RxBytes := RxBytes state; TxBytes := TxBytes state |}.

Definition set_MyNodes (state : State) (v : list PeerStatus) : State :=
  {| Prefs := Prefs state; BackendState := BackendState state;
     TSVersion := TSVersion state; AuthURL := AuthURL state;
     User := User state; Self := Self state; LockKey := LockKey state;
     IsLockedOut := IsLockedOut state; ExitNodes := ExitNodes state;
     MyNodes := v; TaggedNodes := TaggedNodes state;
     OwnedNodeKeys := OwnedNodeKeys state; OwnedNodes := OwnedNodes state;
     CurrentExitNode := CurrentExitNode state;
     CurrentExitNodeName := CurrentExitNodeName state;
     RxBytes := RxBytes state; TxBytes := TxBytes state |}.

Definition set_TaggedNodes (state : State) (v : list PeerStatus) : State :=
  {| Prefs := Prefs state; BackendState := BackendState state;
     TSVersion := TSVersion state; AuthURL := AuthURL state;
     User := User state; Self := Self state; LockKey := LockKey state;
     IsLockedOut := IsLockedOut state; ExitNodes := ExitNodes state;
     MyNodes := MyNodes state; TaggedNodes := v;
     OwnedNodeKeys := OwnedNodeKeys state; OwnedNodes := OwnedNodes state;
     CurrentExitNode := CurrentExitNode state;
     CurrentExitNodeName := CurrentExitNodeName state;
     RxBytes := RxBytes state; TxBytes := TxBytes state |}.

Definition set_OwnedNodeKeys (state : State) (v : list string) : State :=
  {| Prefs := Prefs state; BackendState := BackendState state;
     TSVersion := TSVersion state; AuthURL := AuthURL state;
     User := User state; Self := Self state; LockKey := LockKey state;
     IsLockedOut := IsLockedOut state; ExitNodes := ExitNodes state;
     MyNodes := MyNodes state; TaggedNodes := TaggedNodes state;
     OwnedNodeKeys := v; OwnedNodes := OwnedNodes state;
     CurrentExitNode := CurrentExitNode state;
     CurrentExitNodeName := CurrentExitNodeName state;
     RxBytes := RxBytes state; TxBytes := TxBytes state |}.

Definition set_OwnedNodes (state : State)
    (v : gmap string (list PeerStatus)) : State :=
  {| Prefs := Prefs state; BackendState := BackendState state;
     TSVersion := TSVersion state; AuthURL := AuthURL state;
     User := User state; Self := Self state; LockKey := LockKey state;
     IsLockedOut := IsLockedOut state; ExitNodes := ExitNodes state;
     MyNodes := MyNodes state; TaggedNodes := TaggedNodes state;
     OwnedNodeKeys := OwnedNodeKeys state; OwnedNodes := v;
     CurrentExitNode := CurrentExitNode state;
     CurrentExitNodeName := CurrentExitNodeName state;
     RxBytes := RxBytes state; TxBytes := TxBytes state |}.

Definition set_CurrentExitNode (state : State)
    (v : option tailcfg.StableNodeID) : State :=
  {| Prefs := Prefs state; BackendState := BackendState state;
     TSVersion := TSVersion state; AuthURL := AuthURL state;
     User := User state; Self := Self state; LockKey := LockKey state;
     IsLockedOut := IsLockedOut state; ExitNodes := ExitNodes state;
     MyNodes := MyNodes state; TaggedNodes := TaggedNodes state;
     OwnedNodeKeys := OwnedNodeKeys state; OwnedNodes := OwnedNodes state;
     CurrentExitNode := v;
     CurrentExitNodeName := CurrentExitNodeName state;
     RxBytes := RxBytes state; TxBytes := TxBytes state |}.

Definition set_CurrentExitNodeName (state : State) (v : string) : State :=
  {| Prefs := Prefs state; BackendState := BackendState state;
     TSVersion := TSVersion state; AuthURL := AuthURL state;
     User := User state; Self := Self state; LockKey := LockKey state;
     IsLockedOut := IsLockedOut state; ExitNodes := ExitNodes state;
     MyNodes := MyNodes state; TaggedNodes := TaggedNodes state;
     OwnedNodeKeys := OwnedNodeKeys state; OwnedNodes := OwnedNodes state;
     CurrentExitNode := CurrentExitNode state; CurrentExitNodeName := v;
     RxBytes := RxBytes state; TxBytes := TxBytes state |}.

Definition set_RxBytes (state : State) (v : Z) : State :=
  {| Prefs := Prefs state; BackendState := BackendState state;
     TSVersion := TSVersion state; AuthURL := AuthURL state;
     User := User state; Self := Self state; LockKey := LockKey state;
     IsLockedOut := IsLockedOut state; ExitNodes := ExitNodes state;
     MyNodes := MyNodes state; TaggedNodes := TaggedNodes state;
     OwnedNodeKeys := OwnedNodeKeys state; OwnedNodes := OwnedNodes state;
     CurrentExitNode := CurrentExitNode state;
     CurrentExitNodeName := CurrentExitNodeName state; RxBytes := v;
     TxBytes := TxBytes state |}.

Definition set_TxBytes (state : State) (v : Z) : State :=
  {| Prefs := Prefs state; BackendState := BackendState state;
     TSVersion := TSVersion state; AuthURL := AuthURL state;
     User := User state; Self := Self state; LockKey := LockKey state;
     IsLockedOut := IsLockedOut state; ExitNodes := ExitNodes state;
     MyNodes := MyNodes state; TaggedNodes := TaggedNodes state;
     OwnedNodeKeys := OwnedNodeKeys state; OwnedNodes := OwnedNodes state;
     CurrentExitNode := CurrentExitNode state;
     CurrentExitNodeName := CurrentExitNodeName state;
     RxBytes := RxBytes state; TxBytes := v |}.

(** ** [sortNodes] and [GetState] (current variant) *)

Section Libts.

Context `{Imp : Imports}.

(** The comparison [sortNodes] hands to [slices.SortFunc]. *)
Definition byPeerName (a b : PeerStatus) : Z :=
  strings_Compare (PeerName a) (PeerName b).

(** [sortNodes] sorts the slice in place; the model returns the slice
    as it is afterwards. *)
Definition sortNodes (nodes : list PeerStatus) : list PeerStatus :=
  slices_SortFunc nodes byPeerName.

(** The key of rule 4: the owner's display name, else the login name,
    else the empty string when the owner is not in [status.User]. *)
Definition accountNameOf (status : ipnstate.Status) (peer : PeerStatus)
  : string :=
  match ipnstate.User status !! ipnstate.UserID peer with
  | Some user =>
      if String.eqb (tailcfg.DisplayName user) ""
      then tailcfg.LoginName user
      else tailcfg.DisplayName user
  | None => ""
  end.

(** One round of [for _, peer := range status.Peer].  The test of the
    second branch reads [status.Self.UserID] through the pointer
    [status.Self]. *)
Definition peerLoopBody (status : ipnstate.Status) (state : State)
    (peer : PeerStatus) : outcome State :=
  let state :=
    set_TxBytes state (add64 (TxBytes state) (ipnstate.TxBytes peer)) in
  let state :=
    set_RxBytes state (add64 (RxBytes state) (ipnstate.RxBytes peer)) in
  if ipnstate.ExitNodeOption peer then
    mret (set_ExitNodes state (ExitNodes state ++ [peer]))
  else
    selfUserID ← match ipnstate.Self status with
                 | Some self => mret (ipnstate.UserID self)
                 | None => Panics nilDeref
                 end;
    if ipnstate.UserID peer =? selfUserID then
      mret (set_MyNodes state (MyNodes state ++ [peer]))
    else if ipnstate.IsTagged peer then
      mret (set_TaggedNodes state (TaggedNodes state ++ [peer]))
    else
      let accountName := accountNameOf status peer in
      let owned :=
        match OwnedNodes state !! accountName with
        | Some _ => OwnedNodes state
        | None => <[accountName := []]> (OwnedNodes state)
        end in
      let owned :=
        <[accountName := default [] (owned !! accountName) ++ [peer]]> owned in
      mret (set_OwnedNodes state owned).

Fixpoint peerLoop (status : ipnstate.Status) (peers : list PeerStatus)
    (state : State) : outcome State :=
  match peers with
  | [] => mret state
  | peer :: rest =>
      state ← peerLoopBody status state peer;
      peerLoop status rest state
  end.

(** One round of [for key, value := range state.OwnedNodes]:
    [sortNodes(value)] sorts the array the map entry points to, so the
    entry reads sorted afterwards. *)
Definition ownedLoopBody (state : State) (kv : string * list PeerStatus)
  : State :=
  let state :=
    set_OwnedNodes state (<[kv.1 := sortNodes kv.2]> (OwnedNodes state)) in
  set_OwnedNodeKeys state (OwnedNodeKeys state ++ [kv.1]).

Definition ownedLoop (entries : list (string * list PeerStatus))
    (state : State) : State :=
  fold_left ownedLoopBody entries state.

(** The version string up to the first ['-']. *)
Definition trimVersion (state : State) : outcome State :=
  let versionSplitIndex := strings_IndexByte (TSVersion state) "-"%char in
  if negb (versionSplitIndex =? -1) then
    v ← slice_to (TSVersion state) versionSplitIndex;
    mret (set_TSVersion state v)
  else mret state.

(** [user := status.User[status.Self.UserID]; state.User = &user] *)
Definition resolveUser (status : ipnstate.Status) (state : State) : State :=
  match ipnstate.Self status with
  | Some self =>
      let user :=
        default tailcfg.zero (ipnstate.User status !! ipnstate.UserID self) in
      set_User state (Some user)
  | None => state
  end.

Definition evaluateLock (lock : ipnstate.NetworkLockStatus) (state : State)
  : State :=
  if ipnstate.Enabled lock
     && bool_decide (ipnstate.NodeKey lock <> None)
     && negb (key.IsZero (ipnstate.LPublicKey lock))
  then
    let state := set_LockKey state (Some (ipnstate.LPublicKey lock)) in
    if negb (ipnstate.NodeKeySigned lock)
       && ipn.State_eqb (BackendState state) ipn.Running
    then set_IsLockedOut state true
    else state
  else state.

(** The scan [for _, peer := range state.ExitNodes] with its [break]. *)
Fixpoint exitNodeLoop (nodes : list PeerStatus) (id : tailcfg.StableNodeID)
    (state : State) : State :=
  match nodes with
  | [] => state
  | peer :: rest =>
      if String.eqb (ipnstate.ID peer) id
      then set_CurrentExitNodeName state (PeerName peer)
      else exitNodeLoop rest id state
  end.

Definition resolveExitNode (status : ipnstate.Status) (state : State)
  : State :=
  match ipnstate.ExitNodeStatus_ status with
  | Some ens =>
      let state := set_CurrentExitNode state (Some (ipnstate.EID ens)) in
      exitNodeLoop (ExitNodes state) (ipnstate.EID ens) state
  | None => state
  end.

(** The part of [GetState] after the four early returns. *)
Definition buildState (order : RangeOrder) (status : ipnstate.Status)
    (prefs : ipn.Prefs) (lock : ipnstate.NetworkLockStatus)
    (backendState : ipn.State) : outcome State :=
  let state :=
    {| Prefs := Some prefs; BackendState := backendState;
       TSVersion := ipnstate.Version status;
       AuthURL := ipnstate.AuthURL status; User := None;
       Self := ipnstate.Self status; LockKey := None;
       IsLockedOut := false; ExitNodes := []; MyNodes := [];
       TaggedNodes := []; OwnedNodeKeys := []; OwnedNodes := ∅;
       CurrentExitNode := None; CurrentExitNodeName := "";
       RxBytes := 0; TxBytes := 0 |} in
  state ← peerLoop status (rangePeer order (ipnstate.Peer status)).*2 state;
  let state := set_ExitNodes state (sortNodes (ExitNodes state)) in
  let state := set_MyNodes state (sortNodes (MyNodes state)) in
  let state := set_TaggedNodes state (sortNodes (TaggedNodes state)) in
  let state := ownedLoop (rangeOwnedNodes order (OwnedNodes state)) state in
  let state := set_OwnedNodeKeys state (slices_Sort (OwnedNodeKeys state)) in
  state ← trimVersion state;
  let state := resolveUser status state in
  let state := evaluateLock lock state in
  let state := resolveExitNode status state in
  mret state.

(** [GetState]: the three calls to the daemon are given by what they
    returned. *)
Definition GetState (order : RangeOrder)
    (rStatus : fetched ipnstate.Status) (rPrefs : fetched ipn.Prefs)
    (rLock : fetched ipnstate.NetworkLockStatus)
  : outcome (State * option GoError) :=
  match rStatus with
  | FetchFailed err => mret (State_zero, Some err)
  | Fetched status =>
  match rPrefs with
  | FetchFailed err => mret (State_zero, Some err)
  | Fetched prefs =>
  match rLock with
  | FetchFailed err => mret (State_zero, Some err)
  | Fetched lock =>
  match NewIPNStateFromString (ipnstate.BackendState status) with
  | (_, Some err) =>
      mret (State_zero, Some (Errorf_w "cannot get status from state: " err))
  | (backendState, None) =>
      state ← buildState order status prefs lock backendState;
      mret (state, None)
  end end end end.

End Libts.

(** ** The superseded variant of [state.go] *)

Module Superseded.

Record State : Type := {
  Prefs : option ipn.Prefs;
  BackendState : ipn.State;
  TSVersion : string;
  AuthURL : string;
  User : option tailcfg.UserProfile;
  Self : option PeerStatus;
  LockKey : option key.NLPublic;
  IsLockedOut : bool;
  SortedExitNodes : list PeerStatus;
  CurrentExitNode : option tailcfg.StableNodeID;
  CurrentExitNodeName : string;
  RxBytes : Z;
  TxBytes : Z
}.

Definition State_zero : State :=
  {| Prefs := None; BackendState := ipn.NoState; TSVersion := "";
     AuthURL := ""; User := None; Self := None; LockKey := None;
     IsLockedOut := false; SortedExitNodes := [];
     CurrentExitNode := None; CurrentExitNodeName := "";
     RxBytes := 0; TxBytes := 0 |}.

Section Variant.

Context `{Imp : Imports}.

(** [getSortedExitNodes]; its argument is never nil where [GetState]
    calls it. *)
Definition getSortedExitNodes (peers : list PeerStatus)
  : list PeerStatus :=
  slices_SortFunc (List.filter ipnstate.ExitNodeOption peers) byPeerName.

(** The loop that adds up [TxBytes] and [RxBytes]. *)
Definition sumTraffic (peers : list PeerStatus) : Z * Z :=
  fold_left
    (fun acc peer =>
       (add64 acc.1 (ipnstate.TxBytes peer),
        add64 acc.2 (ipnstate.RxBytes peer)))
    peers (0, 0).

(** The scan of [state.SortedExitNodes] for the current exit node. *)
Fixpoint exitNodeName (nodes : list PeerStatus)
    (id : tailcfg.StableNodeID) : string :=
  match nodes with
  | [] => ""
  | peer :: rest =>
      if String.eqb (ipnstate.ID peer) id then PeerName peer
      else exitNodeName rest id
  end.

(** The superseded [GetState].  After the four early returns the
    statements are taken in the order of the source, each as the value it
    leaves in its field; the record is built at the end. *)
Definition GetState (order : RangeOrder)
    (rStatus : fetched ipnstate.Status) (rPrefs : fetched ipn.Prefs)
    (rLock : fetched ipnstate.NetworkLockStatus)
  : outcome (State * option GoError) :=
  match rStatus with
  | FetchFailed err => mret (State_zero, Some err)
  | Fetched status =>
  match rPrefs with
  | FetchFailed err => mret (State_zero, Some err)
  | Fetched prefs =>
  match rLock with
  | FetchFailed err => mret (State_zero, Some err)
  | Fetched lock =>
  match NewIPNStateFromString (ipnstate.BackendState status) with
  | (_, Some err) =>
      mret (State_zero,
            Some (Errorf_w "cannot get status from state: " err))
  | (backendState, None) =>
      let sorted :=
        getSortedExitNodes (rangePeer order (ipnstate.Peer status)).*2 in
      let traffic :=
        sumTraffic (rangePeerAgain order (ipnstate.Peer status)).*2 in
      let version := ipnstate.Version status in
      let versionSplitIndex := strings_IndexByte version "-"%char in
      version ← (if negb (versionSplitIndex =? -1)
                 then slice_to version versionSplitIndex
                 else mret version);
      let user :=
        match ipnstate.Self status with
        | Some self =>
            Some (default tailcfg.zero
                    (ipnstate.User status !! ipnstate.UserID self))
        | None => None
        end in
      let lockOn :=
        ipnstate.Enabled lock
        && bool_decide (ipnstate.NodeKey lock <> None)
        && negb (key.IsZero (ipnstate.LPublicKey lock)) in
      let lockedOut :=
        lockOn && negb (ipnstate.NodeKeySigned lock)
        && ipn.State_eqb backendState ipn.Running in
      mret
        ({| Prefs := Some prefs; BackendState := backendState;
            TSVersion := version; AuthURL := ipnstate.AuthURL status;
            User := user; Self := ipnstate.Self status;
            LockKey :=
              if lockOn then Some (ipnstate.LPublicKey lock) else None;
            IsLockedOut := lockedOut; SortedExitNodes := sorted;
            CurrentExitNode :=
              ipnstate.EID <$> ipnstate.ExitNodeStatus_ status;
            CurrentExitNodeName :=
              match ipnstate.ExitNodeStatus_ status with
              | Some ens => exitNodeName sorted (ipnstate.EID ens)
              | None => ""
              end;
            RxBytes := traffic.2; TxBytes := traffic.1 |}, None)
  end end end end.

End Variant.

End Superseded.

(** ** The classifier's rules and the loop in closed form *)

Section Rules.

Variable status : ipnstate.Status.

(** Rules 1 to 4, first match wins. *)
Definition toExitNodes (p : PeerStatus) : bool := ipnstate.ExitNodeOption p.

Definition toMyNodes (p : PeerStatus) : bool :=
  negb (toExitNodes p)
  && match ipnstate.Self status with
     | Some self => ipnstate.UserID p =? ipnstate.UserID self
     | None => false
     end.

Definition toTaggedNodes (p : PeerStatus) : bool :=
  negb (toExitNodes p) && negb (toMyNodes p) && ipnstate.IsTagged p.

Definition toOwnedNodes (p : PeerStatus) : bool :=
  negb (toExitNodes p) && negb (toMyNodes p) && negb (ipnstate.IsTagged p).

(** A peer the loop cannot classify: it is not an exit node option and
    there is no self peer to compare its owner with. *)
Definition needsSelf (p : PeerStatus) : bool :=
  negb (toExitNodes p) && bool_decide (ipnstate.Self status = None).

(** Appending a peer to its account's bucket. *)
Definition addOwned (owned : gmap string (list PeerStatus)) (p : PeerStatus)
  : gmap string (list PeerStatus) :=
  <[accountNameOf status p :=
      default [] (owned !! accountNameOf status p) ++ [p]]> owned.

(** The peers of the bucket [k], in the order met. *)
Definition bucketOf (k : string) (peers : list PeerStatus) : list PeerStatus :=
  List.filter
    (fun p => toOwnedNodes p && String.eqb (accountNameOf status p) k) peers.

End Rules.

(** The [int64] sum of a list, as the loop accumulates it. *)
Definition sum64 (acc : Z) (l : list Z) : Z := fold_left add64 l acc.

(** The exact sum of a list of counters. *)
Definition sumZ (l : list Z) : Z := foldr Z.add 0 l.

(** The peers of a status, each entry of the map once. *)
Definition peersOf (status : ipnstate.Status) : list PeerStatus :=
  (map_to_list (ipnstate.Peer status)).*2.

(** The state the peer loop leaves when it runs to its end. *)
Definition peerLoopResult (status : ipnstate.Status) (peers : list PeerStatus)
    (state : State) : State :=
  {| Prefs := Prefs state; BackendState := BackendState state;
     TSVersion := TSVersion state; AuthURL := AuthURL state;
     User := User state; Self := Self state; LockKey := LockKey state;
     IsLockedOut := IsLockedOut state;
     ExitNodes := ExitNodes state ++ List.filter toExitNodes peers;
     MyNodes := MyNodes state ++ List.filter (toMyNodes status) peers;
     TaggedNodes :=
       TaggedNodes state ++ List.filter (toTaggedNodes status) peers;
     OwnedNodeKeys := OwnedNodeKeys state;
     OwnedNodes :=
       fold_left (addOwned status)
         (List.filter (toOwnedNodes status) peers) (OwnedNodes state);
     CurrentExitNode := CurrentExitNode state;
     CurrentExitNodeName := CurrentExitNodeName state;
     RxBytes := sum64 (RxBytes state) (map ipnstate.RxBytes peers);
     TxBytes := sum64 (TxBytes state) (map ipnstate.TxBytes peers) |}.

(** The state after [for key, value := range state.OwnedNodes]. *)
Definition ownedLoopResult `{Imp : Imports}
    (entries : list (string * list PeerStatus)) (state : State) : State :=
  {| Prefs := Prefs state; BackendState := BackendState state;
     TSVersion := TSVersion state; AuthURL := AuthURL state;
     User := User state; Self := Self state; LockKey := LockKey state;
     IsLockedOut := IsLockedOut state; ExitNodes := ExitNodes state;
     MyNodes := MyNodes state; TaggedNodes := TaggedNodes state;
     OwnedNodeKeys := OwnedNodeKeys state ++ entries.*1;
     OwnedNodes :=
       fold_left (fun m kv => <[kv.1 := sortNodes kv.2]> m) entries
         (OwnedNodes state);
     CurrentExitNode := CurrentExitNode state;
     CurrentExitNodeName := CurrentExitNodeName state;
     RxBytes := RxBytes state; TxBytes := TxBytes state |}.

(** The part of [s] before the first byte [c]; all of [s] if there is
    none.  This is the contract of the version normalizer in words. *)
Fixpoint before (c : ascii) (s : string) : string :=
  match s with
  | EmptyString => EmptyString
  | String a s' => if Ascii.eqb a c then EmptyString else String a (before c s')
  end.

(** [c] occurs in [s]. *)
Fixpoint hasByte (c : ascii) (s : string) : bool :=
  match s with
  | EmptyString => false
  | String a s' => Ascii.eqb a c || hasByte c s'
  end.

(** ** The snapshot in closed form *)

Section SnapshotForm.
Context `{Imp : Imports}.
Variables (order : RangeOrder) (status : ipnstate.Status)
  (prefs : ipn.Prefs) (lock : ipnstate.NetworkLockStatus)
  (backendState : ipn.State).

(** The peers in the order this run's [range] yields them. *)
Definition peersSeen : list PeerStatus :=
  (rangePeer order (ipnstate.Peer status)).*2.

(** The account buckets when the peer loop ends, not yet sorted. *)
Definition ownedSeen : gmap string (list PeerStatus) :=
  fold_left (addOwned status)
    (List.filter (toOwnedNodes status) peersSeen) ∅.

Definition lockOn : bool :=
  ipnstate.Enabled lock
  && bool_decide (ipnstate.NodeKey lock <> None)
  && negb (key.IsZero (ipnstate.LPublicKey lock)).

(** The display name of the first node with the given id, if any. *)
Definition firstNameById (nodes : list PeerStatus)
    (id : tailcfg.StableNodeID) : string :=
  match List.find (fun p => String.eqb (ipnstate.ID p) id) nodes with
  | Some p => PeerName p
  | None => ""
  end.

Definition snapshot : State :=
  {| Prefs := Some prefs; BackendState := backendState;
     TSVersion := before "-" (ipnstate.Version status);
     AuthURL := ipnstate.AuthURL status;
     User :=
       match ipnstate.Self status with
       | Some self =>
           Some (default tailcfg.zero
                   (ipnstate.User status !! ipnstate.UserID self))
       | None => None
       end;
     Self := ipnstate.Self status;
     LockKey := if lockOn then Some (ipnstate.LPublicKey lock) else None;
     IsLockedOut :=
       lockOn && negb (ipnstate.NodeKeySigned lock)
       && ipn.State_eqb backendState ipn.Running;
     ExitNodes := sortNodes (List.filter toExitNodes peersSeen);
     MyNodes := sortNodes (List.filter (toMyNodes status) peersSeen);
     TaggedNodes := sortNodes (List.filter (toTaggedNodes status) peersSeen);
     OwnedNodeKeys := slices_Sort (rangeOwnedNodes order ownedSeen).*1;
     OwnedNodes := sortNodes <$> ownedSeen;
     CurrentExitNode := ipnstate.EID <$> ipnstate.ExitNodeStatus_ status;
     CurrentExitNodeName :=
       match ipnstate.ExitNodeStatus_ status with
       | Some ens =>
           firstNameById (sortNodes (List.filter toExitNodes peersSeen))
             (ipnstate.EID ens)
       | None => ""
       end;
     RxBytes := sum64 0 (map ipnstate.RxBytes peersSeen);
     TxBytes := sum64 0 (map ipnstate.TxBytes peersSeen) |}.

End SnapshotForm.

(** All the peers of the account buckets. *)
Definition flatOwned (m : gmap string (list PeerStatus)) : list PeerStatus :=
  concat (map_to_list m).*2.

(** The backend-state tags [NewIPNStateFromString] knows. *)
Definition knownTags : list (string * ipn.State) :=
  [ ("NoState", ipn.NoState); ("InUseOtherUser", ipn.InUseOtherUser);
    ("NeedsLogin", ipn.NeedsLogin); ("NeedsMachineAuth", ipn.NeedsMachineAuth);
    ("Stopped", ipn.Stopped); ("Starting", ipn.Starting);
    ("Running", ipn.Running) ].

(** [sub] occurs in [s]. *)
Definition includes (s sub : string) : Prop :=
  exists pre post, s = String.append pre (String.append sub post).

(** No element is less than the one before it. *)
Definition notBelow {A} (less : A -> A -> bool) (a b : A) : Prop :=
  less b a = false.

(** The display name of [a] does not come after that of [b]. *)
Definition nameLe `{Imp : Imports} (a b : PeerStatus) : Prop :=
  strings_Compare (PeerName a) (PeerName b) <= 0.

(** ** Runs of the library: insertion sort, two iteration orders, samples *)

(** [insertionSortCmpFunc] of package [slices], the routine
    [slices.SortFunc] and [slices.Sort] run on a slice of at most twelve
    elements: each element in turn is swapped to the left while it is less
    than its left neighbour.  [handled] is the part already in order,
    nearest neighbour first. *)
Fixpoint sinkLeft {A} (less : A -> A -> bool) (x : A) (handled : list A)
  : list A :=
  match handled with
  | [] => [x]
  | y :: rest => if less x y then y :: sinkLeft less x rest else x :: handled
  end.

Definition insertionSort {A} (less : A -> A -> bool) (data : list A)
  : list A :=
  reverse (fold_left (fun handled x => sinkLeft less x handled) data []).

(** The order in which [map_to_list] lists a map, and the opposite one. *)
Definition listedOrder : RangeOrder :=
  {| rangePeer := map_to_list;
     rangePeer_perm := fun m => reflexivity (map_to_list m);
     rangePeerAgain := map_to_list;
     rangePeerAgain_perm := fun m => reflexivity (map_to_list m);
     rangeOwnedNodes := map_to_list;
     rangeOwnedNodes_perm := fun m => reflexivity (map_to_list m) |}.

Definition reversedOrder : RangeOrder :=
  {| rangePeer := fun m => reverse (map_to_list m);
     rangePeer_perm := fun m => reverse_Permutation (map_to_list m);
     rangePeerAgain := map_to_list;
     rangePeerAgain_perm := fun m => reflexivity (map_to_list m);
     rangeOwnedNodes := fun m => reverse (map_to_list m);
     rangeOwnedNodes_perm := fun m => reverse_Permutation (map_to_list m) |}.

Definition mkPeer (id : string) (k : N) (host : string) (uid : Z)
    (tags : option (list string)) (rx tx : Z) (exitOption : bool)
  : PeerStatus :=
  {| ipnstate.ID := id; ipnstate.PublicKey := k; ipnstate.HostName := host;
     ipnstate.DNSName := String.append host ".tail.ts.net.";
     ipnstate.OS := "linux"; ipnstate.UserID := uid; ipnstate.Tags := tags;
     ipnstate.RxBytes := rx; ipnstate.TxBytes := tx;
     ipnstate.Online := true; ipnstate.ExitNode := false;
     ipnstate.ExitNodeOption := exitOption |}.

Definition mkUser (uid : Z) (login display : string) : tailcfg.UserProfile :=
  {| tailcfg.ID := uid; tailcfg.LoginName := login;
     tailcfg.DisplayName := display; tailcfg.ProfilePicURL := "" |}.

Definition samplePrefs : ipn.Prefs :=
  {| ipn.ControlURL := "https://controlplane.tailscale.com";
     ipn.RouteAll := true; ipn.ExitNodeID := "n3"; ipn.CorpDNS := true;
     ipn.WantRunning := true; ipn.Hostname := "laptop" |}.

Definition sampleSelf : PeerStatus := mkPeer "n0" 10 "laptop" 1 None 0 0 false.

Definition samplePeers : gmap N PeerStatus :=
  list_to_map
    [ (11%N, mkPeer "n1" 11 "phone" 1 None 100 10 false);
      (12%N, mkPeer "n2" 12 "ci-runner" 9 (Some ["tag:ci"]) 200 20 false);
      (13%N, mkPeer "n3" 13 "oslo" 9 (Some ["tag:exit"]) 300 30 true);
      (14%N, mkPeer "n4" 14 "amsterdam" 2 None 400 40 true);
      (15%N, mkPeer "n5" 15 "bob-desktop" 2 None 500 50 false);
      (16%N, mkPeer "n6" 16 "bob-phone" 2 None 600 60 false);
      (17%N, mkPeer "n7" 17 "carol-pi" 3 None 700 70 false);
      (18%N, mkPeer "n8" 18 "stray" 4 None 800 80 false) ].

Definition sampleUsers : gmap Z tailcfg.UserProfile :=
  list_to_map
    [ (1, mkUser 1 "alice@example.com" "Alice");
      (2, mkUser 2 "bob@example.com" "Bob");
      (3, mkUser 3 "carol@example.com" "") ].

Definition sampleStatus : ipnstate.Status :=
  {| ipnstate.Version := "1.70.0-abc123"; ipnstate.BackendState := "Running";
     ipnstate.AuthURL := ""; ipnstate.Self := Some sampleSelf;
     ipnstate.ExitNodeStatus_ :=
       Some {| ipnstate.EID := "n3"; ipnstate.EOnline := true;
               ipnstate.TailscaleIPs := ["100.64.0.3/32"] |};
     ipnstate.Peer := samplePeers; ipnstate.User := sampleUsers |}.

Definition sampleLock : ipnstate.NetworkLockStatus :=
  {| ipnstate.Enabled := true; ipnstate.LPublicKey := 77%N;
     ipnstate.NodeKey := Some 10%N; ipnstate.NodeKeySigned := false |}.

(** Two peers whose received bytes add up to [2^63]. *)
Definition overflowStatus : ipnstate.Status :=
  {| ipnstate.Version := "1.70.0"; ipnstate.BackendState := "Running";
     ipnstate.AuthURL := ""; ipnstate.Self := Some sampleSelf;
     ipnstate.ExitNodeStatus_ := None;
     ipnstate.Peer :=
       list_to_map
         [ (21%N, mkPeer "n21" 21 "nas" 1 None 9223372036854775807 0 false);
           (22%N, mkPeer "n22" 22 "tv" 1 None 1 0 false) ];
     ipnstate.User := sampleUsers |}.

(** Two exit node options with the same display name. *)
Definition twinStatus : ipnstate.Status :=
  {| ipnstate.Version := "1.70.0"; ipnstate.BackendState := "Running";
     ipnstate.AuthURL := ""; ipnstate.Self := Some sampleSelf;
     ipnstate.ExitNodeStatus_ := None;
     ipnstate.Peer :=
       list_to_map
         [ (31%N, mkPeer "nA" 31 "twin" 2 None 0 0 true);
           (32%N, mkPeer "nB" 32 "twin" 3 None 0 0 true) ];
     ipnstate.User := sampleUsers |}.

(** No self peer, and one peer that is not an exit node option. *)
Definition nilSelfStatus : ipnstate.Status :=
  {| ipnstate.Version := "1.70.0"; ipnstate.BackendState := "NeedsLogin";
     ipnstate.AuthURL := "https://login.tailscale.com/a/1";
     ipnstate.Self := None; ipnstate.ExitNodeStatus_ := None;
     ipnstate.Peer :=
       list_to_map [ (41%N, mkPeer "n41" 41 "printer" 5 None 0 0 false) ];
     ipnstate.User := ∅ |}.

(** A self peer whose owner is not in the user directory. *)
Definition orphanStatus : ipnstate.Status :=
  {| ipnstate.Version := "1.70.0"; ipnstate.BackendState := "Running";
     ipnstate.AuthURL := "";
     ipnstate.Self := Some (mkPeer "n0" 10 "laptop" 99 None 0 0 false);
     ipnstate.ExitNodeStatus_ := None; ipnstate.Peer := ∅;
     ipnstate.User := sampleUsers |}.

(** ** The client wrappers: calls to the Tailscale daemon *)

(** [getSortedExitNodes] of the superseded variant with its argument as
    the pointer it is: nil gives the empty slice. *)
Definition getSortedExitNodesOf `{Imp : Imports} (order : RangeOrder)
    (tsStatus : option ipnstate.Status) : list PeerStatus :=
  match tsStatus with
  | None => []
  | Some status =>
      Superseded.getSortedExitNodes
        (rangePeer order (ipnstate.Peer status)).*2
  end.

Module Ts.

(** [ipn.Options], [ipn.MaskedPrefs] (the embedded [Prefs] and the masks
    of the fields listed in [ipn.Prefs] above, with [ExitNodeIPSet]),
    [ipnstate.PingResult] and [tailcfg.PingType], as far as the wrappers
    touch them. *)
Record Options : Type := {
  AuthKey : string;
  UpdatePrefs : option ipn.Prefs
}.

Definition Options_zero : Options :=
  {| AuthKey := ""; UpdatePrefs := None |}.

Definition Prefs_zero : ipn.Prefs :=
  {| ipn.ControlURL := ""; ipn.RouteAll := false; ipn.ExitNodeID := "";
     ipn.CorpDNS := false; ipn.WantRunning := false; ipn.Hostname := "" |}.

Record MaskedPrefs : Type := {
  MPrefs : ipn.Prefs;
  ControlURLSet : bool;
  RouteAllSet : bool;
  ExitNodeIDSet : bool;
  ExitNodeIPSet : bool;
  CorpDNSSet : bool;
  WantRunningSet : bool;
  HostnameSet : bool
}.

Definition MaskedPrefs_zero : MaskedPrefs :=
  {| MPrefs := Prefs_zero; ControlURLSet := false; RouteAllSet := false;
     ExitNodeIDSet := false; ExitNodeIPSet := false; CorpDNSSet := false;
     WantRunningSet := false; HostnameSet := false |}.

Record PingResult : Type := {
  PIP : string;
  NodeIP : string;
  NodeName : string;
  Err : string;
  Endpoint : string
}.

Definition PingDisco : string := "disco".

(** A [*ipnstate.PeerStatus] together with its field [TailscaleIPs],
    which the record [ipnstate.PeerStatus] above does not list; a
    [netip.Addr] is the number its sixteen bytes spell. *)
Record PeerWithIPs : Type := {
  peerStatus : PeerStatus;
  TailscaleIPs : list N
}.

Definition indexOutOfRange : string :=
  "runtime error: index out of range [0] with length 0".

(** What the wrappers use of the Go runtime and of packages [netip] and
    [ipn]: [runtime.GOOS], [netip.Addr.String], and the two methods of
    [*ipn.Prefs] (the receiver is returned as it is afterwards). *)
Class Library : Type := {
  GOOS : string;
  Addr_String : N -> string;
  ClearExitNode : ipn.Prefs -> ipn.Prefs;
  SetExitNodeIP :
    ipn.Prefs -> string -> ipnstate.Status -> ipn.Prefs * option GoError
}.

(** A request to the daemon through [tailscale.LocalClient]. *)
Inductive Call : Type :=
  | CallStatus
  | CallStart (opts : Options)
  | CallStartLoginInteractive
  | CallPing (ip : N) (pingtype : string)
  | CallLogout
  | CallGetPrefs
  | CallEditPrefs (mp : MaskedPrefs)
  | CallNetworkLockStatus.

(** A function that talks to the daemon: it returns, panics, or makes a
    request and goes on with the answer. *)
Inductive Client (R : Type) : Type :=
  | Done (r : R)
  | Crash (msg : string)
  | DoStatus (k : fetched ipnstate.Status -> Client R)
  | DoStart (opts : Options) (k : option GoError -> Client R)
  | DoStartLoginInteractive (k : option GoError -> Client R)
  | DoPing (ip : N) (pingtype : string) (k : fetched PingResult -> Client R)
  | DoLogout (k : option GoError -> Client R)
  | DoGetPrefs (k : fetched ipn.Prefs -> Client R)
  | DoEditPrefs (mp : MaskedPrefs) (k : fetched ipn.Prefs -> Client R)
  | DoNetworkLockStatus
      (k : fetched ipnstate.NetworkLockStatus -> Client R).

Arguments Done {R} r.
Arguments Crash {R} msg.
Arguments DoStatus {R} k.
Arguments DoStart {R} opts k.
Arguments DoStartLoginInteractive {R} k.
Arguments DoPing {R} ip pingtype k.
Arguments DoLogout {R} k.
Arguments DoGetPrefs {R} k.
Arguments DoEditPrefs {R} mp k.
Arguments DoNetworkLockStatus {R} k.

Fixpoint andThen {A B} (p : Client A) (f : A -> Client B) : Client B :=
  match p with
  | Done a => f a
  | Crash msg => Crash msg
  | DoStatus k => DoStatus (fun x => andThen (k x) f)
  | DoStart opts k => DoStart opts (fun x => andThen (k x) f)
  | DoStartLoginInteractive k =>
      DoStartLoginInteractive (fun x => andThen (k x) f)
  | DoPing ip t k => DoPing ip t (fun x => andThen (k x) f)
  | DoLogout k => DoLogout (fun x => andThen (k x) f)
  | DoGetPrefs k => DoGetPrefs (fun x => andThen (k x) f)
  | DoEditPrefs mp k => DoEditPrefs mp (fun x => andThen (k x) f)
  | DoNetworkLockStatus k => DoNetworkLockStatus (fun x => andThen (k x) f)
  end.

#[global] Instance Client_ret : MRet Client := fun A a => Done a.
#[global] Instance Client_bind : MBind Client := fun A B f p => andThen p f.

(** A pure computation inside a client function. *)
Definition ofOutcome {R} (o : outcome R) : Client R :=
  match o with
  | Returns r => Done r
  | Panics msg => Crash msg
  end.

(** A daemon: its state and its answer to each request. *)
Record Daemon : Type := {
  World : Type;
  onStatus : World -> fetched ipnstate.Status * World;
  onStart : Options -> World -> option GoError * World;
  onStartLoginInteractive : World -> option GoError * World;
  onPing : N -> string -> World -> fetched PingResult * World;
  onLogout : World -> option GoError * World;
  onGetPrefs : World -> fetched ipn.Prefs * World;
  onEditPrefs : MaskedPrefs -> World -> fetched ipn.Prefs * World;
  onNetworkLockStatus :
    World -> fetched ipnstate.NetworkLockStatus * World
}.

(** One run of a client function against a daemon: what it returns, the
    state it leaves the daemon in, and the requests it made, in order. *)
Record Run (R W : Type) : Type := {
  result : outcome R;
  after : W;
  calls : list Call
}.
Arguments result {R W} r.
Arguments after {R W} r.
Arguments calls {R W} r.

Definition called {R W} (c : Call) (r : Run R W) : Run R W :=
  {| result := result r; after := after r; calls := c :: calls r |}.

Fixpoint run {R} (d : Daemon) (p : Client R) (w : World d)
  : Run R (World d) :=
  match p with
  | Done r => {| result := Returns r; after := w; calls := [] |}
  | Crash msg => {| result := Panics msg; after := w; calls := [] |}
  | DoStatus k =>
      let a := onStatus d w in called CallStatus (run d (k a.1) a.2)
  | DoStart opts k =>
      let a := onStart d opts w in called (CallStart opts) (run d (k a.1) a.2)
  | DoStartLoginInteractive k =>
      let a := onStartLoginInteractive d w in
      called CallStartLoginInteractive (run d (k a.1) a.2)
  | DoPing ip t k =>
      let a := onPing d ip t w in called (CallPing ip t) (run d (k a.1) a.2)
  | DoLogout k =>
      let a := onLogout d w in called CallLogout (run d (k a.1) a.2)
  | DoGetPrefs k =>
      let a := onGetPrefs d w in called CallGetPrefs (run d (k a.1) a.2)
  | DoEditPrefs mp k =>
      let a := onEditPrefs d mp w in
      called (CallEditPrefs mp) (run d (k a.1) a.2)
  | DoNetworkLockStatus k =>
      let a := onNetworkLockStatus d w in
      called CallNetworkLockStatus (run d (k a.1) a.2)
  end.

(** The requests that only read. *)
Definition readOnly (c : Call) : bool :=
  match c with
  | CallStatus | CallGetPrefs | CallNetworkLockStatus => true
  | _ => false
  end.

Definition isEditPrefs (c : Call) : bool :=
  match c with
  | CallEditPrefs _ => true
  | _ => false
  end.

Section Wrappers.
Context `{Lib : Library} `{Imp : Imports}.

Definition Status : Client (fetched ipnstate.Status) := DoStatus Done.

Definition StartLoginInteractiveWillOpenBrowser : bool :=
  String.eqb GOOS "darwin".

Definition StartLoginInteractive : Client (option GoError) :=
  err ← DoStart Options_zero Done;
  match err with
  | Some e => mret (Some e)
  | None => DoStartLoginInteractive Done
  end.

(** [peer.TailscaleIPs[0]] reads through [peer] and indexes the slice. *)
Definition PingPeer (peer : option PeerWithIPs)
  : Client (fetched PingResult) :=
  match peer with
  | None => Crash nilDeref
  | Some p =>
      match TailscaleIPs p with
      | [] => Crash indexOutOfRange
      | ip :: _ => DoPing ip PingDisco Done
      end
  end.

Definition Logout : Client (option GoError) := DoLogout Done.

Definition Prefs : Client (fetched ipn.Prefs) := DoGetPrefs Done.

(** [_, err := ts.EditPrefs(ctx, maskedPrefs); return err] *)
Definition EditPrefs (maskedPrefs : MaskedPrefs) : Client (option GoError) :=
  r ← DoEditPrefs maskedPrefs Done;
  mret (match r with
        | Fetched _ => None
        | FetchFailed err => Some err
        end).

Definition CanWrite : Client bool :=
  err ← EditPrefs MaskedPrefs_zero;
  mret (match err with
        | None => true
        | Some _ => false
        end).

Definition LockStatus : Client (fetched ipnstate.NetworkLockStatus) :=
  DoNetworkLockStatus Done.

(** [ipn.Prefs{WantRunning: v}] under the mask [WantRunningSet]. *)
Definition wantRunning (v : bool) : MaskedPrefs :=
  {| MPrefs :=
       {| ipn.ControlURL := ""; ipn.RouteAll := false; ipn.ExitNodeID := "";
          ipn.CorpDNS := false; ipn.WantRunning := v; ipn.Hostname := "" |};
     ControlURLSet := false; RouteAllSet := false; ExitNodeIDSet := false;
     ExitNodeIPSet := false; CorpDNSSet := false; WantRunningSet := true;
     HostnameSet := false |}.

Definition Up : Client (option GoError) := EditPrefs (wantRunning true).

Definition Down : Client (option GoError) := EditPrefs (wantRunning false).

(** The mask [SetExitNode] sends: the prefs under [ExitNodeIDSet] and
    [ExitNodeIPSet]. *)
Definition exitNodeEdit (prefs : ipn.Prefs) : MaskedPrefs :=
  {| MPrefs := prefs; ControlURLSet := false; RouteAllSet := false;
     ExitNodeIDSet := true; ExitNodeIPSet := true; CorpDNSSet := false;
     WantRunningSet := false; HostnameSet := false |}.

(** The end of [SetExitNode], from [ts.EditPrefs] on. *)
Definition sendExitNode (prefs : ipn.Prefs) : Client (option GoError) :=
  r ← DoEditPrefs (exitNodeEdit prefs) Done;
  mret (match r with
        | Fetched _ => None
        | FetchFailed err => Some err
        end).

(** [SetExitNode]; what [prefs.SetExitNodeIP] returns is not looked at. *)
Definition SetExitNode (peer : option PeerWithIPs)
  : Client (option GoError) :=
  match peer with
  | None => sendExitNode (ClearExitNode Prefs_zero)
  | Some p =>
      r ← DoStatus Done;
      match r with
      | FetchFailed err => mret (Some err)
      | Fetched status =>
          match TailscaleIPs p with
          | [] => Crash indexOutOfRange
          | ip :: _ =>
              sendExitNode
                (SetExitNodeIP Prefs_zero (Addr_String ip) status).1
          end
      end
  end.

(** [GetState] with its three calls: after them it goes on as
    [GetState] above does on what was fetched. *)
Definition GetState (order : RangeOrder) : Client (State * option GoError) :=
  rStatus ← Status;
  match rStatus with
  | FetchFailed err => mret (State_zero, Some err)
  | Fetched status =>
      rPrefs ← Prefs;
      match rPrefs with
      | FetchFailed err => mret (State_zero, Some err)
      | Fetched prefs =>
          rLock ← LockStatus;
          match rLock with
          | FetchFailed err => mret (State_zero, Some err)
          | Fetched lock =>
              ofOutcome
                (GetState order (Fetched status) (Fetched prefs)
                   (Fetched lock))
          end
      end
  end.

End Wrappers.

End Ts.

(** A daemon that answers every request with the samples, and one that
    refuses every request; their state counts the requests. *)
Definition sampleDaemon : Ts.Daemon :=
  {| Ts.World := nat;
     Ts.onStatus := fun w => (Fetched sampleStatus, S w);
     Ts.onStart := fun _ w => (None, S w);
     Ts.onStartLoginInteractive := fun w => (None, S w);
     Ts.onPing := fun _ _ w =>
       (Fetched {| Ts.PIP := "100.64.0.3"; Ts.NodeIP := "100.64.0.3";
                   Ts.NodeName := "oslo"; Ts.Err := "";
                   Ts.Endpoint := "192.0.2.7:41641" |}, S w);
     Ts.onLogout := fun w => (None, S w);
     Ts.onGetPrefs := fun w => (Fetched samplePrefs, S w);
     Ts.onEditPrefs := fun mp w => (Fetched (Ts.MPrefs mp), S w);
     Ts.onNetworkLockStatus := fun w => (Fetched sampleLock, S w) |}.

Definition refused : GoError := errorString "connection refused".

Definition downDaemon : Ts.Daemon :=
  {| Ts.World := nat;
     Ts.onStatus := fun w => (FetchFailed refused, S w);
     Ts.onStart := fun _ w => (Some refused, S w);
     Ts.onStartLoginInteractive := fun w => (Some refused, S w);
     Ts.onPing := fun _ _ w => (FetchFailed refused, S w);
     Ts.onLogout := fun w => (Some refused, S w);
     Ts.onGetPrefs := fun w => (FetchFailed refused, S w);
     Ts.onEditPrefs := fun _ w => (FetchFailed refused, S w);
     Ts.onNetworkLockStatus := fun w => (FetchFailed refused, S w) |}.

(** A library for the samples: every address prints alike and
    [SetExitNodeIP] refuses every address. *)
Definition sampleLibrary : Ts.Library :=
  {| Ts.GOOS := "linux";
     Ts.Addr_String := fun _ => "100.64.0.3";
     Ts.ClearExitNode := fun p => p;
     Ts.SetExitNodeIP := fun p _ _ =>
       (p, Some (errorString "no node found in netmap")) |}.

Definition samplePeerWithIPs : Ts.PeerWithIPs :=
  {| Ts.peerStatus := mkPeer "n3" 13 "oslo" 9 (Some ["tag:exit"]) 300 30 true;
     Ts.TailscaleIPs := [1681915907%N] |}.

(** The snapshot of the superseded variant in closed form. *)
Definition supersededSnapshot `{Imp : Imports} (order : RangeOrder)
    (status : ipnstate.Status) (prefs : ipn.Prefs)
    (lock : ipnstate.NetworkLockStatus) (backendState : ipn.State)
  : Superseded.State :=
  {| Superseded.Prefs := Some prefs;
     Superseded.BackendState := backendState;
     Superseded.TSVersion := before "-" (ipnstate.Version status);
     Superseded.AuthURL := ipnstate.AuthURL status;
     Superseded.User :=
       match ipnstate.Self status with
       | Some self =>
           Some (default tailcfg.zero
                   (ipnstate.User status !! ipnstate.UserID self))
       | None => None
       end;
     Superseded.Self := ipnstate.Self status;
     Superseded.LockKey :=
       if lockOn lock then Some (ipnstate.LPublicKey lock) else None;
     Superseded.IsLockedOut :=
       lockOn lock && negb (ipnstate.NodeKeySigned lock)
       && ipn.State_eqb backendState ipn.Running;
     Superseded.SortedExitNodes := getSortedExitNodesOf order (Some status);
     Superseded.CurrentExitNode :=
       ipnstate.EID <$> ipnstate.ExitNodeStatus_ status;
     Superseded.CurrentExitNodeName :=
       match ipnstate.ExitNodeStatus_ status with
       | Some ens =>
           firstNameById (getSortedExitNodesOf order (Some status))
             (ipnstate.EID ens)
       | None => ""
       end;
     Superseded.RxBytes :=
       sum64 0 (map ipnstate.RxBytes
                  (rangePeerAgain order (ipnstate.Peer status)).*2);
     Superseded.TxBytes :=
       sum64 0 (map ipnstate.TxBytes
                  (rangePeerAgain order (ipnstate.Peer status)).*2) |}.

(** What two snapshots of the same input have in common whatever the
    order the peers were met in. *)
Definition sameUpToOrder (s t : State) : Prop :=
  Prefs s = Prefs t /\ BackendState s = BackendState t
  /\ TSVersion s = TSVersion t /\ AuthURL s = AuthURL t
  /\ User s = User t /\ Self s = Self t /\ LockKey s = LockKey t
  /\ IsLockedOut s = IsLockedOut t
  /\ CurrentExitNode s = CurrentExitNode t
  /\ RxBytes s = RxBytes t /\ TxBytes s = TxBytes t
  /\ OwnedNodeKeys s = OwnedNodeKeys t
  /\ ExitNodes s ≡ₚ ExitNodes t /\ MyNodes s ≡ₚ MyNodes t
  /\ TaggedNodes s ≡ₚ TaggedNodes t
  /\ forall k,
       match OwnedNodes s !! k, OwnedNodes t !! k with
       | Some l1, Some l2 => l1 ≡ₚ l2
       | None, None => True
       | _, _ => False
       end.


(** The error of an answer, nil when there is none. *)
Definition errorOf {A} (r : fetched A) : option GoError :=
  match r with
  | Fetched _ => None
  | FetchFailed err => Some err
  end.

(** An edit that touches the exit node and nothing else. *)
Definition exitNodeOnly (c : Ts.Call) : Prop :=
  match c with
  | Ts.CallEditPrefs mp =>
      Ts.ExitNodeIDSet mp = true /\ Ts.ExitNodeIPSet mp = true
      /\ Ts.ControlURLSet mp = false /\ Ts.RouteAllSet mp = false
      /\ Ts.CorpDNSSet mp = false /\ Ts.WantRunningSet mp = false
      /\ Ts.HostnameSet mp = false
  | _ => True
  end.

(** ** Facts about the runtime model *)

Section StringOrder.

Lemma string_append_nil_r (s : string) : String.append s "" = s.
Proof.
  induction s as [|a s IH]; [reflexivity|].
  change (String a (String.append s "") = String a s). now f_equal.
Qed.

Lemma ascii_compare_refl (a : ascii) : Ascii.compare a a = Eq.
Proof. unfold Ascii.compare. apply N.compare_refl. Qed.

Lemma ascii_compare_lt_trans (a b c : ascii) :
  Ascii.compare a b = Lt -> Ascii.compare b c = Lt -> Ascii.compare a c = Lt.
Proof.
  unfold Ascii.compare. rewrite !N.compare_lt_iff. lia.
Qed.

Lemma string_compare_refl (s : string) : String.compare s s = Eq.
Proof.
  induction s as [|a s IH]; simpl; [reflexivity|].
  now rewrite ascii_compare_refl.
Qed.

Lemma string_compare_eq (a b : string) : String.compare a b = Eq <-> a = b.
Proof.
  split; [apply String.compare_eq_iff|intros ->; apply string_compare_refl].
Qed.

Lemma string_compare_lt_trans (a b c : string) :
  String.compare a b = Lt -> String.compare b c = Lt ->
  String.compare a c = Lt.
Proof.
  revert b c. induction a as [|x a IH]; intros [|y b] [|z c]; simpl;
    try congruence.
  destruct (Ascii.compare x y) eqn:Hxy, (Ascii.compare y z) eqn:Hyz;
    try congruence; intros Hab Hbc.
  - apply Ascii.compare_eq_iff in Hxy, Hyz. subst.
    rewrite ascii_compare_refl. eauto.
  - apply Ascii.compare_eq_iff in Hxy. subst. now rewrite Hyz.
  - apply Ascii.compare_eq_iff in Hyz. subst. now rewrite Hxy.
  - now rewrite (ascii_compare_lt_trans x y z).
Qed.

Lemma string_compare_gt_lt (a b : string) :
  String.compare a b = Gt <-> String.compare b a = Lt.
Proof.
  rewrite (String.compare_antisym b a).
  destruct (String.compare a b); simpl; split; congruence.
Qed.

Lemma string_less_irrefl (a : string) : string_less a a = false.
Proof. unfold string_less. now rewrite string_compare_refl. Qed.

Lemma string_less_asym (a b : string) :
  string_less a b = true -> string_less b a = false.
Proof.
  unfold string_less. rewrite (String.compare_antisym b a).
  destruct (String.compare a b); simpl; congruence.
Qed.

Lemma string_less_trans (a b c : string) :
  string_less a b = true -> string_less b c = true -> string_less a c = true.
Proof.
  unfold string_less.
  destruct (String.compare a b) eqn:Hab; try discriminate.
  destruct (String.compare b c) eqn:Hbc; try discriminate.
  now rewrite (string_compare_lt_trans a b c).
Qed.

(** [b] not below [a] and [c] not below [b]: [c] is not below [a]. *)
Lemma string_not_less_trans (a b c : string) :
  string_less b a = false -> string_less c b = false ->
  string_less c a = false.
Proof.
  unfold string_less. intros Hba Hcb.
  destruct (String.compare c a) eqn:Hca; try reflexivity.
  destruct (String.compare b a) eqn:Hba'; try discriminate.
  - apply string_compare_eq in Hba'. subst. now rewrite Hca in Hcb.
  - destruct (String.compare c b) eqn:Hcb'; try discriminate.
    + apply string_compare_eq in Hcb'. subst. congruence.
    + apply string_compare_gt_lt in Hba', Hcb'.
      pose proof (string_compare_lt_trans _ _ _ Hba' Hcb') as H.
      apply string_compare_gt_lt in H. congruence.
Qed.

Lemma string_not_less_antisym (a b : string) :
  string_less a b = false -> string_less b a = false -> a = b.
Proof.
  unfold string_less. rewrite (String.compare_antisym b a).
  destruct (String.compare a b) eqn:H; simpl; try discriminate.
  intros _ _. now apply string_compare_eq.
Qed.

Lemma strings_Compare_neg (a b : string) :
  strings_Compare a b < 0 <-> string_less a b = true.
Proof.
  unfold strings_Compare, string_less.
  destruct (String.compare a b); split; (lia || congruence).
Qed.

Lemma strings_Compare_ltb (a b : string) :
  (strings_Compare a b <? 0) = string_less a b.
Proof.
  unfold strings_Compare, string_less.
  destruct (String.compare a b); reflexivity.
Qed.

Lemma strings_Compare_swap (a b : string) :
  strings_Compare a b <= 0 <-> string_less b a = false.
Proof.
  unfold strings_Compare, string_less.
  rewrite (String.compare_antisym b a).
  destruct (String.compare a b); simpl; split; (lia || congruence).
Qed.

Lemma strings_Compare_zero (a b : string) :
  strings_Compare a b = 0 <-> a = b.
Proof.
  unfold strings_Compare. rewrite <- string_compare_eq.
  destruct (String.compare a b); split; (lia || congruence).
Qed.

End StringOrder.

Section Sorting.

Context {A : Type} (less : A -> A -> bool).

Lemma isSortedBy_Sorted (x : list A) :
  isSortedBy less x = true <-> Sorted (notBelow less) x.
Proof.
  induction x as [|a [|b x] IH].
  - split; [constructor|reflexivity].
  - split; [repeat constructor|reflexivity].
  - change (isSortedBy less (a :: b :: x))
      with (negb (less b a) && isSortedBy less (b :: x)).
    rewrite andb_true_iff, negb_true_iff, IH. split.
    + intros [Hab Hs]. constructor; [assumption|]. now constructor.
    + intros Hs. inversion Hs as [|? ? Hs' Hhd]; subst.
      inversion Hhd; subst. now split.
Qed.

Lemma sinkLeft_perm (x : A) (before : list A) :
  sinkLeft less x before ≡ₚ x :: before.
Proof.
  induction before as [|y rest IH]; simpl; [reflexivity|].
  destruct (less x y); [|reflexivity].
  rewrite IH. apply Permutation_swap.
Qed.

Lemma insertionSort_perm (data : list A) : insertionSort less data ≡ₚ data.
Proof.
  unfold insertionSort. rewrite reverse_Permutation.
  enough (forall acc,
    fold_left (fun handled x => sinkLeft less x handled) data acc
      ≡ₚ data ++ acc) as H
    by (rewrite H; now rewrite app_nil_r).
  induction data as [|x data IH]; intros acc; simpl; [reflexivity|].
  rewrite IH, sinkLeft_perm. symmetry. apply Permutation_middle.
Qed.

Hypothesis less_asym : forall a b, less a b = true -> less b a = false.

(** The handled part stays in descending order, seen from the right. *)
Lemma sinkLeft_sorted (x : A) (before : list A) :
  Sorted (fun u v => less u v = false) before ->
  Sorted (fun u v => less u v = false) (sinkLeft less x before).
Proof.
  induction before as [|y rest IH]; simpl; intros Hs.
  - repeat constructor.
  - destruct (less x y) eqn:Hxy.
    + inversion Hs as [|? ? Hrest Hhd]; subst.
      constructor; [now apply IH|].
      destruct rest as [|z rest']; simpl.
      * constructor. now apply less_asym.
      * destruct (less x z).
        -- constructor. now inversion Hhd.
        -- constructor. now apply less_asym.
    + constructor; [assumption|now constructor].
Qed.

Lemma insertionSort_sorted (data : list A) :
  isSortedBy less (insertionSort less data) = true.
Proof.
  apply isSortedBy_Sorted. unfold insertionSort.
  apply (Sorted_reverse (fun u v => less u v = false)).
  enough (forall acc, Sorted (fun u v => less u v = false) acc ->
    Sorted (fun u v => less u v = false)
      (fold_left (fun handled x => sinkLeft less x handled) data acc)) as H
    by (apply H; constructor).
  induction data as [|x data IH]; intros acc Hacc; simpl; [assumption|].
  apply IH. now apply sinkLeft_sorted.
Qed.

End Sorting.

Lemma StrictWeakOrdering_asym {A} (cmp : A -> A -> Z) :
  StrictWeakOrdering cmp ->
  forall a b, (cmp a b <? 0) = true -> (cmp b a <? 0) = false.
Proof.
  intros [Hirr Htr _] a b Hab. apply Z.ltb_lt in Hab.
  apply Z.ltb_ge. destruct (Z.lt_ge_cases (cmp b a) 0) as [Hba|]; [|lia].
  exfalso. apply (Hirr a). eauto.
Qed.

Lemma State_ext (s t : State) :
  Prefs s = Prefs t -> BackendState s = BackendState t ->
  TSVersion s = TSVersion t -> AuthURL s = AuthURL t -> User s = User t ->
  Self s = Self t -> LockKey s = LockKey t -> IsLockedOut s = IsLockedOut t ->
  ExitNodes s = ExitNodes t -> MyNodes s = MyNodes t ->
  TaggedNodes s = TaggedNodes t -> OwnedNodeKeys s = OwnedNodeKeys t ->
  OwnedNodes s = OwnedNodes t -> CurrentExitNode s = CurrentExitNode t ->
  CurrentExitNodeName s = CurrentExitNodeName t -> RxBytes s = RxBytes t ->
  TxBytes s = TxBytes t -> s = t.
Proof. destruct s, t; cbn; intros; subst; reflexivity. Qed.

Section LoopFacts.

Context `{Imp : Imports}.

Lemma insert_bucket (owned : gmap string (list PeerStatus)) k p :
  <[k := default [] (match owned !! k with
                     | Some _ => owned
                     | None => <[k := []]> owned
                     end !! k) ++ [p]]>
    (match owned !! k with
     | Some _ => owned
     | None => <[k := []]> owned
     end)
  = <[k := default [] (owned !! k) ++ [p]]> owned.
Proof.
  destruct (owned !! k) as [l|] eqn:Hk.
  - now rewrite Hk.
  - rewrite lookup_insert_eq, insert_insert_eq. reflexivity.
Qed.

Lemma peerLoopBody_spec status state p :
  peerLoopBody status state p =
    if needsSelf status p then Panics nilDeref
    else Returns (peerLoopResult status [p] state).
Proof.
  unfold peerLoopBody, needsSelf, peerLoopResult, toTaggedNodes,
    toOwnedNodes, toMyNodes, toExitNodes, sum64.
  destruct state; cbn [List.filter map fold_left].
  destruct (ipnstate.ExitNodeOption p) eqn:He; cbn.
  - now rewrite !app_nil_r.
  - destruct (ipnstate.Self status) as [self|] eqn:Hs; cbn; [|reflexivity].
    destruct (ipnstate.UserID p =? ipnstate.UserID self); cbn.
    + now rewrite !app_nil_r.
    + destruct (ipnstate.IsTagged p); cbn.
      * now rewrite !app_nil_r.
      * rewrite !app_nil_r. unfold addOwned. now rewrite insert_bucket.
Qed.

Lemma peerLoopResult_app status l1 l2 state :
  peerLoopResult status (l1 ++ l2) state =
  peerLoopResult status l2 (peerLoopResult status l1 state).
Proof.
  unfold peerLoopResult, sum64; cbn.
  rewrite !List.filter_app, !map_app, !fold_left_app, !app_assoc.
  reflexivity.
Qed.

Lemma peerLoopResult_nil status state :
  peerLoopResult status [] state = state.
Proof.
  destruct state; unfold peerLoopResult, sum64; cbn.
  now rewrite !app_nil_r.
Qed.

(** The loop panics exactly when it meets a peer it cannot classify. *)
Lemma peerLoop_spec status peers state :
  peerLoop status peers state =
    if existsb (needsSelf status) peers then Panics nilDeref
    else Returns (peerLoopResult status peers state).
Proof.
  revert state. induction peers as [|p peers IH]; intros state.
  - cbn. now rewrite peerLoopResult_nil.
  - cbn [peerLoop existsb]. rewrite peerLoopBody_spec.
    destruct (needsSelf status p); cbn; [reflexivity|].
    rewrite IH. destruct (existsb _ peers); [reflexivity|].
    now rewrite (peerLoopResult_app status [p] peers).
Qed.

End LoopFacts.

Section StageFacts.

Context `{Imp : Imports}.

Lemma ownedLoop_spec entries state :
  ownedLoop entries state = ownedLoopResult entries state.
Proof.
  unfold ownedLoop. revert state.
  induction entries as [|kv entries IH]; intros state.
  - destruct state; unfold ownedLoopResult; cbn. now rewrite app_nil_r.
  - cbn [fold_left]. rewrite IH. unfold ownedLoopResult, ownedLoopBody; cbn.
    now rewrite <- app_assoc.
Qed.

(** Overwriting every entry of a map with its image. *)
Lemma fold_insert_lookup {V} (f : V -> V) (l : list (string * V))
    (m : gmap string V) (k : string) :
  NoDup l.*1 ->
  fold_left (fun m kv => <[kv.1 := f kv.2]> m) l m !! k =
    match (list_to_map l : gmap string V) !! k with
    | Some v => Some (f v)
    | None => m !! k
    end.
Proof.
  revert m. induction l as [|[k' v] l IH]; intros m Hnd.
  - cbn. now rewrite lookup_empty.
  - rewrite fmap_cons in Hnd. apply NoDup_cons in Hnd as [Hk' Hnd].
    cbn [fold_left fst snd]. rewrite IH by assumption.
    rewrite list_to_map_cons.
    destruct (decide (k' = k)) as [->|Hne].
    + rewrite (not_elem_of_list_to_map_1 _ _ Hk').
      now rewrite !lookup_insert_eq.
    + rewrite (lookup_insert_ne (list_to_map l) k' k) by assumption.
      destruct (list_to_map l !! k); [reflexivity|].
      now rewrite lookup_insert_ne.
Qed.

Lemma fold_insert_range {V} (f : V -> V) (l : list (string * V))
    (m : gmap string V) :
  l ≡ₚ map_to_list m ->
  fold_left (fun m kv => <[kv.1 := f kv.2]> m) l m = f <$> m.
Proof.
  intros Hl. apply map_eq. intros k.
  assert (NoDup l.*1) as Hnd.
  { rewrite Hl. apply NoDup_fst_map_to_list. }
  rewrite fold_insert_lookup by assumption.
  rewrite (list_to_map_proper l (map_to_list m) Hnd Hl).
  rewrite list_to_map_to_list, lookup_fmap.
  now destruct (m !! k).
Qed.

Lemma IndexByte_from_spec (c : ascii) (s : string) (i : Z) :
  0 <= i ->
  if hasByte c s
  then IndexByte_from s c i = i + Z.of_nat (String.length (before c s))
       /\ (String.length (before c s) < String.length s)%nat
  else IndexByte_from s c i = -1 /\ before c s = s.
Proof.
  revert i. induction s as [|a s IH]; intros i Hi; cbn.
  - split; reflexivity.
  - destruct (Ascii.eqb a c); cbn.
    + split; lia.
    + specialize (IH (i + 1) ltac:(lia)).
      destruct (hasByte c s).
      * destruct IH as [-> Hlen]. split; lia.
      * destruct IH as [-> ->]. split; reflexivity.
Qed.

Lemma substring_before (c : ascii) (s : string) :
  substring 0 (String.length (before c s)) s = before c s.
Proof.
  induction s as [|a s IH]; cbn; [reflexivity|].
  destruct (Ascii.eqb a c); cbn; [reflexivity|]. now rewrite IH.
Qed.

Lemma trimVersion_spec state :
  trimVersion state =
    Returns (set_TSVersion state (before "-" (TSVersion state))).
Proof.
  unfold trimVersion, strings_IndexByte.
  pose proof (IndexByte_from_spec "-" (TSVersion state) 0 ltac:(lia)) as H.
  destruct (hasByte "-" (TSVersion state)).
  - destruct H as [-> Hlen]. rewrite Z.add_0_l.
    replace (Z.of_nat _ =? -1) with false by (symmetry; apply Z.eqb_neq; lia).
    cbn [negb]. unfold slice_to.
    replace (_ && _) with true
      by (symmetry; apply andb_true_iff; split; apply Z.leb_le; lia).
    cbn. now rewrite Nat2Z.id, substring_before.
  - destruct H as [-> ->]. cbn. now destruct state.
Qed.

End StageFacts.

Section SnapshotFacts.
Context `{Imp : Imports}.
Variables (order : RangeOrder) (status : ipnstate.Status)
  (prefs : ipn.Prefs) (lock : ipnstate.NetworkLockStatus)
  (backendState : ipn.State).

Lemma exitNodeLoop_spec nodes id state :
  exitNodeLoop nodes id state =
    match List.find (fun p => String.eqb (ipnstate.ID p) id) nodes with
    | Some p => set_CurrentExitNodeName state (PeerName p)
    | None => state
    end.
Proof.
  induction nodes as [|p nodes IH]; cbn; [reflexivity|].
  now destruct (String.eqb (ipnstate.ID p) id).
Qed.

Lemma resolveUser_spec state :
  resolveUser status state =
    set_User state
      match ipnstate.Self status with
      | Some self =>
          Some (default tailcfg.zero
                  (ipnstate.User status !! ipnstate.UserID self))
      | None => User state
      end.
Proof.
  unfold resolveUser. destruct (ipnstate.Self status); [reflexivity|].
  now destruct state.
Qed.

Lemma evaluateLock_spec state :
  evaluateLock lock state =
    set_IsLockedOut
      (set_LockKey state
         (if lockOn lock then Some (ipnstate.LPublicKey lock)
          else LockKey state))
      (if lockOn lock && negb (ipnstate.NodeKeySigned lock)
          && ipn.State_eqb (BackendState state) ipn.Running
       then true else IsLockedOut state).
Proof.
  unfold evaluateLock. fold (lockOn lock).
  destruct (lockOn lock); cbn [andb]; [|now destruct state].
  cbn [BackendState set_LockKey].
  destruct (negb (ipnstate.NodeKeySigned lock)
            && ipn.State_eqb (BackendState state) ipn.Running);
    [reflexivity|now destruct state].
Qed.

Lemma resolveExitNode_spec state :
  resolveExitNode status state =
    set_CurrentExitNodeName
      (set_CurrentExitNode state
         match ipnstate.ExitNodeStatus_ status with
         | Some ens => Some (ipnstate.EID ens)
         | None => CurrentExitNode state
         end)
      match ipnstate.ExitNodeStatus_ status with
      | Some ens =>
          match List.find (fun p => String.eqb (ipnstate.ID p)
                                      (ipnstate.EID ens))
                  (ExitNodes state) with
          | Some p => PeerName p
          | None => CurrentExitNodeName state
          end
      | None => CurrentExitNodeName state
      end.
Proof.
  unfold resolveExitNode.
  destruct (ipnstate.ExitNodeStatus_ status) as [ens|]; [|now destruct state].
  rewrite exitNodeLoop_spec. cbn [ExitNodes set_CurrentExitNode].
  destruct (List.find _ _); [reflexivity|now destruct state].
Qed.

Lemma buildState_spec :
  buildState order status prefs lock backendState =
    if existsb (needsSelf status) (peersSeen order status)
    then Panics nilDeref
    else Returns (snapshot order status prefs lock backendState).
Proof.
  unfold buildState. fold (peersSeen order status). rewrite peerLoop_spec.
  destruct (existsb (needsSelf status) (peersSeen order status));
    [reflexivity|].
  cbn [mbind outcome_bind]. rewrite ownedLoop_spec, trimVersion_spec.
  cbn [mbind outcome_bind mret outcome_ret]. f_equal.
  rewrite resolveExitNode_spec, evaluateLock_spec, resolveUser_spec.
  apply State_ext; cbn [snapshot Prefs BackendState TSVersion AuthURL User
    Self LockKey IsLockedOut ExitNodes MyNodes TaggedNodes OwnedNodeKeys
    OwnedNodes CurrentExitNode CurrentExitNodeName RxBytes TxBytes
    set_CurrentExitNodeName set_CurrentExitNode set_IsLockedOut set_LockKey
    set_User set_TSVersion set_OwnedNodeKeys ownedLoopResult
    set_TaggedNodes set_MyNodes set_ExitNodes peerLoopResult app];
    try reflexivity.
  - now destruct (_ && _ && _).
  - fold (ownedSeen order status).
    apply fold_insert_range, rangeOwnedNodes_perm.
Qed.

End SnapshotFacts.

Section GetStateFacts.

Context `{Imp : Imports}.

Lemma NewIPNStateFromString_known tag bs :
  (tag, bs) ∈ knownTags -> NewIPNStateFromString tag = (bs, None).
Proof.
  unfold knownTags. rewrite !elem_of_cons, elem_of_nil.
  intros H; repeat destruct H as [H|H]; try contradiction;
    injection H as -> ->; reflexivity.
Qed.

Lemma NewIPNStateFromString_unknown tag :
  tag ∉ knownTags.*1 ->
  NewIPNStateFromString tag =
    (ipn.NoState, Some (Errorf_s "unknown ipn state: " tag)).
Proof.
  unfold knownTags. cbn [fmap list_fmap fst].
  rewrite !not_elem_of_cons. intros H.
  unfold NewIPNStateFromString.
  repeat match goal with
         | |- context [String.eqb tag ?t] =>
             destruct (String.eqb_spec tag t) as [->|_];
             [exfalso; tauto|]
         end.
  reflexivity.
Qed.

Lemma NewIPNStateFromString_cases tag :
  (exists bs, (tag, bs) ∈ knownTags) \/ tag ∉ knownTags.*1.
Proof.
  destruct (decide (tag ∈ knownTags.*1)) as [Hin|Hout]; [left|now right].
  apply list_elem_of_fmap in Hin as [[t bs] [-> Hin]]. now exists bs.
Qed.

Lemma GetState_spec order status prefs lock :
  GetState order (Fetched status) (Fetched prefs) (Fetched lock) =
    match NewIPNStateFromString (ipnstate.BackendState status) with
    | (_, Some err) =>
        Returns (State_zero,
                 Some (Errorf_w "cannot get status from state: " err))
    | (backendState, None) =>
        if existsb (needsSelf status) (peersSeen order status)
        then Panics nilDeref
        else Returns (snapshot order status prefs lock backendState, None)
    end.
Proof.
  unfold GetState.
  destruct (NewIPNStateFromString _) as [bs [err|]]; [reflexivity|].
  rewrite buildState_spec. now destruct (existsb _ _).
Qed.

(** A run that returns a snapshot. *)
Lemma GetState_returns order rStatus rPrefs rLock st :
  GetState order rStatus rPrefs rLock = Returns (st, None) ->
  exists status prefs lock backendState,
    rStatus = Fetched status /\ rPrefs = Fetched prefs
    /\ rLock = Fetched lock
    /\ NewIPNStateFromString (ipnstate.BackendState status)
       = (backendState, None)
    /\ existsb (needsSelf status) (peersSeen order status) = false
    /\ st = snapshot order status prefs lock backendState.
Proof.
  destruct rStatus as [status|e]; [|discriminate].
  destruct rPrefs as [prefs|e]; [|discriminate].
  destruct rLock as [lock|e]; [|discriminate].
  rewrite GetState_spec.
  destruct (NewIPNStateFromString _) as [bs [err|]] eqn:Htag; [discriminate|].
  destruct (existsb _ _) eqn:Hex; [discriminate|].
  intros [= <-]. exists status, prefs, lock, bs. repeat split; auto.
Qed.

End GetStateFacts.

Section Arithmetic.

Lemma wrap64_add_l (a b : Z) : wrap64 (wrap64 a + b) = wrap64 (a + b).
Proof.
  unfold wrap64.
  replace ((a + 2 ^ 63) mod 2 ^ 64 - 2 ^ 63 + b + 2 ^ 63)
    with ((a + 2 ^ 63) mod 2 ^ 64 + b) by lia.
  rewrite Zplus_mod_idemp_l. f_equal. f_equal. lia.
Qed.

Lemma wrap64_idem (z : Z) : wrap64 (wrap64 z) = wrap64 z.
Proof.
  rewrite <- (Z.add_0_r (wrap64 z)) at 1.
  rewrite wrap64_add_l. now rewrite Z.add_0_r.
Qed.

Lemma wrap64_small (z : Z) : - 2 ^ 63 <= z < 2 ^ 63 -> wrap64 z = z.
Proof. intros H. unfold wrap64. rewrite Z.mod_small; lia. Qed.

Lemma wrap64_range (z : Z) : - 2 ^ 63 <= wrap64 z < 2 ^ 63.
Proof.
  unfold wrap64.
  pose proof (Z.mod_pos_bound (z + 2 ^ 63) (2 ^ 64) ltac:(lia)). lia.
Qed.

Lemma sum64_wrap (l : list Z) (acc : Z) :
  wrap64 acc = acc -> sum64 acc l = wrap64 (acc + sumZ l).
Proof.
  unfold sum64, sumZ. revert acc.
  induction l as [|x l IH]; intros acc Hacc; cbn.
  - now rewrite Z.add_0_r, Hacc.
  - rewrite IH by apply wrap64_idem.
    unfold add64. rewrite wrap64_add_l. f_equal. lia.
Qed.

Lemma sumZ_perm (l1 l2 : list Z) : l1 ≡ₚ l2 -> sumZ l1 = sumZ l2.
Proof. unfold sumZ. induction 1; cbn in *; lia. Qed.

End Arithmetic.

Lemma find_split {A} (f : A -> bool) (l : list A) :
  match List.find f l with
  | Some p =>
      exists l1 l2, l = l1 ++ p :: l2 /\ f p = true
                    /\ Forall (fun q => f q = false) l1
  | None => Forall (fun q => f q = false) l
  end.
Proof.
  induction l as [|a l IH]; cbn; [constructor|].
  destruct (f a) eqn:Ha.
  - exists [], l. auto.
  - destruct (List.find f l) as [p|].
    + destruct IH as (l1 & l2 & -> & Hp & Hl1).
      exists (a :: l1), l2. auto.
    + now constructor.
Qed.

Lemma before_hasByte (c : ascii) (s : string) : hasByte c (before c s) = false.
Proof.
  induction s as [|a s IH]; cbn; [reflexivity|].
  destruct (Ascii.eqb a c) eqn:Ha; cbn; [reflexivity|]. now rewrite Ha.
Qed.

Lemma before_all (c : ascii) (s : string) :
  hasByte c s = false -> before c s = s.
Proof.
  induction s as [|a s IH]; cbn; [reflexivity|].
  destruct (Ascii.eqb a c); cbn; [discriminate|]. intros H. now rewrite IH.
Qed.

Lemma before_append (c : ascii) (a b : string) :
  hasByte c a = false -> before c (String.append a (String c b)) = a.
Proof.
  induction a as [|x a IH]; intros H.
  - change (before c (String c b) = EmptyString). cbn.
    now rewrite Ascii.eqb_refl.
  - change (String.append (String x a) (String c b))
      with (String x (String.append a (String c b))).
    cbn in *. destruct (Ascii.eqb x c); [discriminate|]. now rewrite IH.
Qed.

Section PartitionFacts.

Context `{Imp : Imports}.

Variable status : ipnstate.Status.

Lemma concat_perm {A} (l1 l2 : list (list A)) :
  l1 ≡ₚ l2 -> concat l1 ≡ₚ concat l2.
Proof.
  induction 1 as [|x l1 l2 _ IH|x y l|l1 l2 l3 _ IH1 _ IH2]; cbn.
  - reflexivity.
  - now rewrite IH.
  - rewrite !app_assoc. f_equiv. apply Permutation_app_comm.
  - now rewrite IH1.
Qed.

Lemma flatOwned_insert_None (m : gmap string (list PeerStatus)) k v :
  m !! k = None -> flatOwned (<[k := v]> m) ≡ₚ v ++ flatOwned m.
Proof.
  intros Hk. unfold flatOwned.
  rewrite (concat_perm _ (((k, v) :: map_to_list m).*2)).
  - reflexivity.
  - apply fmap_Permutation. now apply map_to_list_insert.
Qed.

Lemma flatOwned_addOwned (m : gmap string (list PeerStatus)) p :
  flatOwned (addOwned status m p) ≡ₚ flatOwned m ++ [p].
Proof.
  unfold addOwned. set (k := accountNameOf status p).
  destruct (m !! k) as [v|] eqn:Hk; cbn [default from_option id].
  - rewrite <- insert_delete_eq.
    rewrite flatOwned_insert_None by apply lookup_delete_eq.
    transitivity ((v ++ flatOwned (delete k m)) ++ [p]).
    + rewrite <- !app_assoc. apply Permutation_app_head.
      apply Permutation_app_comm.
    + apply Permutation_app_tail.
      rewrite <- (flatOwned_insert_None (delete k m) k v)
        by apply lookup_delete_eq.
      now rewrite insert_delete_id.
  - rewrite flatOwned_insert_None by assumption.
    apply Permutation_app_comm.
Qed.

Lemma flatOwned_fold (l : list PeerStatus) (m : gmap string (list PeerStatus)) :
  flatOwned (fold_left (addOwned status) l m) ≡ₚ flatOwned m ++ l.
Proof.
  revert m. induction l as [|p l IH]; intros m; cbn.
  - now rewrite app_nil_r.
  - rewrite IH, flatOwned_addOwned. now rewrite <- app_assoc.
Qed.

Lemma flatOwned_sorted (m : gmap string (list PeerStatus)) :
  flatOwned (sortNodes <$> m) ≡ₚ flatOwned m.
Proof.
  unfold flatOwned.
  rewrite map_to_list_fmap.
  induction (map_to_list m) as [|[k v] l IH]; cbn; [reflexivity|].
  rewrite IH. f_equiv. apply slices_SortFunc_perm.
Qed.

(** Every peer falls under exactly one rule. *)
Lemma rules_exclusive (p : PeerStatus) :
  (Nat.b2n (toExitNodes p) + Nat.b2n (toMyNodes status p)
   + Nat.b2n (toTaggedNodes status p) + Nat.b2n (toOwnedNodes status p)
   = 1)%nat.
Proof.
  unfold toOwnedNodes, toTaggedNodes, toMyNodes.
  destruct (toExitNodes p), (ipnstate.IsTagged p),
    (match ipnstate.Self status with
     | Some self => ipnstate.UserID p =? ipnstate.UserID self
     | None => false
     end); reflexivity.
Qed.

Lemma rules_partition (l : list PeerStatus) :
  List.filter toExitNodes l ++ List.filter (toMyNodes status) l
  ++ List.filter (toTaggedNodes status) l
  ++ List.filter (toOwnedNodes status) l ≡ₚ l.
Proof.
  induction l as [|p l IH]; [reflexivity|].
  pose proof (rules_exclusive p) as Hp. cbn [List.filter].
  etransitivity; [|apply perm_skip, IH].
  set (A := List.filter toExitNodes l) in *.
  set (B := List.filter (toMyNodes status) l) in *.
  set (C := List.filter (toTaggedNodes status) l) in *.
  set (D := List.filter (toOwnedNodes status) l) in *.
  destruct (toExitNodes p), (toMyNodes status p),
    (toTaggedNodes status p), (toOwnedNodes status p);
    cbn in Hp; try discriminate.
  - reflexivity.
  - symmetry. apply (Permutation_middle A (B ++ C ++ D) p).
  - symmetry. rewrite !(app_assoc A B).
    apply (Permutation_middle (A ++ B) (C ++ D) p).
  - symmetry. rewrite !(app_assoc A B), !(app_assoc (A ++ B) C).
    apply (Permutation_middle ((A ++ B) ++ C) D p).
Qed.

Lemma filter_true {A} (f : A -> bool) (l : list A) :
  Forall (fun x => f x = true) (List.filter f l).
Proof.
  apply List.Forall_forall. intros x Hx. now apply List.filter_In in Hx.
Qed.

Lemma filter_twice {A} (f g : A -> bool) (l : list A) :
  List.filter f (List.filter g l) = List.filter (fun x => g x && f x) l.
Proof.
  induction l as [|a l IH]; cbn; [reflexivity|].
  destruct (g a); cbn; [|assumption]. destruct (f a); now rewrite IH.
Qed.

Lemma fold_addOwned_lookup (l : list PeerStatus)
    (m : gmap string (list PeerStatus)) (k : string) :
  fold_left (addOwned status) l m !! k =
    match List.filter (fun p => String.eqb (accountNameOf status p) k) l with
    | [] => m !! k
    | f => Some (default [] (m !! k) ++ f)
    end.
Proof.
  revert m. induction l as [|p l IH]; intros m; [reflexivity|].
  cbn [fold_left List.filter]. rewrite IH. unfold addOwned at 1 2.
  destruct (String.eqb_spec (accountNameOf status p) k) as [->|Hne].
  - rewrite lookup_insert_eq. cbn [default from_option id].
    destruct (List.filter _ l); [reflexivity|].
    now rewrite <- app_assoc.
  - now rewrite lookup_insert_ne.
Qed.

(** A bucket holds the peers of its account, in the order met. *)
Lemma ownedSeen_lookup order (k : string) :
  ownedSeen order status !! k =
    match bucketOf status k (peersSeen order status) with
    | [] => None
    | f => Some f
    end.
Proof.
  unfold ownedSeen, bucketOf. rewrite fold_addOwned_lookup, filter_twice.
  rewrite lookup_empty. reflexivity.
Qed.

End PartitionFacts.

Section OrderFacts.

Context `{Imp : Imports}.

Lemma byPeerName_swo : StrictWeakOrdering byPeerName.
Proof.
  unfold byPeerName. split.
  - intros a. rewrite strings_Compare_neg, string_less_irrefl. discriminate.
  - intros a b c. rewrite !strings_Compare_neg. apply string_less_trans.
  - intros a b c. rewrite !strings_Compare_neg, !not_true_iff_false.
    intros Hab Hbc. eapply string_not_less_trans; eassumption.
Qed.

#[local] Instance nameLe_trans : Transitive nameLe.
Proof.
  intros a b c. unfold nameLe. rewrite !strings_Compare_swap.
  intros Hab Hbc. eapply string_not_less_trans; eassumption.
Qed.

Lemma nameLe_antisym (a b : PeerStatus) :
  nameLe a b -> nameLe b a -> PeerName a = PeerName b.
Proof.
  unfold nameLe. rewrite !strings_Compare_swap. intros Hab Hba.
  now apply string_not_less_antisym.
Qed.

Lemma Sorted_weaken {A} (R S : A -> A -> Prop) (l : list A) :
  (forall a b, R a b -> S a b) -> Sorted R l -> Sorted S l.
Proof.
  intros HRS. induction 1 as [|a l Hl IH Hhd]; constructor; [assumption|].
  destruct Hhd; constructor. now apply HRS.
Qed.

Lemma sortNodes_perm (l : list PeerStatus) : sortNodes l ≡ₚ l.
Proof. apply slices_SortFunc_perm. Qed.

Lemma sortNodes_sorted (l : list PeerStatus) :
  StronglySorted nameLe (sortNodes l).
Proof.
  apply Sorted_StronglySorted; [apply nameLe_trans|].
  pose proof (slices_SortFunc_sorted _ l byPeerName byPeerName_swo) as H.
  apply isSortedBy_Sorted in H. fold (sortNodes l) in H.
  eapply Sorted_weaken; [|exact H]. intros a b. unfold notBelow, nameLe.
  unfold byPeerName. rewrite strings_Compare_ltb.
  now rewrite strings_Compare_swap.
Qed.

(** Sorting decides the order of peers whose display names differ. *)
Lemma sortNodes_unique (l1 l2 : list PeerStatus) :
  l1 ≡ₚ l2 ->
  (forall p q, p ∈ l1 -> q ∈ l1 -> PeerName p = PeerName q -> p = q) ->
  sortNodes l1 = sortNodes l2.
Proof.
  intros Hp Hinj.
  apply (StronglySorted_unique_strong nameLe);
    try apply sortNodes_sorted.
  - intros x1 x2 H1 H2 H12 H21. apply Hinj.
    + now rewrite sortNodes_perm in H1.
    + rewrite sortNodes_perm in H2. now rewrite Hp.
    + now apply nameLe_antisym.
  - now rewrite !sortNodes_perm.
Qed.

Lemma sorted_strings_unique (l1 l2 : list string) :
  l1 ≡ₚ l2 -> slices_IsSorted l1 = true -> slices_IsSorted l2 = true ->
  l1 = l2.
Proof.
  intros Hp H1 H2. apply isSortedBy_Sorted in H1, H2.
  assert (Transitive (notBelow string_less)) as Htr.
  { intros a b c Hab Hbc. unfold notBelow in *.
    eapply string_not_less_trans; eassumption. }
  apply (Sorted_unique_strong (notBelow string_less)); try assumption.
  intros x1 x2 _ _ H12 H21. unfold notBelow in *.
  now apply string_not_less_antisym.
Qed.

Lemma filter_perm {A} (f : A -> bool) (l1 l2 : list A) :
  l1 ≡ₚ l2 -> List.filter f l1 ≡ₚ List.filter f l2.
Proof.
  induction 1 as [|x l1 l2 _ IH|x y l|l1 l2 l3 _ IH1 _ IH2]; cbn.
  - reflexivity.
  - destruct (f x); [now apply perm_skip|assumption].
  - destruct (f x), (f y); try reflexivity. apply perm_swap.
  - now rewrite IH1.
Qed.

Lemma existsb_perm {A} (f : A -> bool) (l1 l2 : list A) :
  l1 ≡ₚ l2 -> existsb f l1 = existsb f l2.
Proof.
  induction 1 as [|x l1 l2 _ IH|x y l|l1 l2 l3 _ IH1 _ IH2]; cbn.
  - reflexivity.
  - now rewrite IH.
  - destruct (f x), (f y); reflexivity.
  - now rewrite IH1.
Qed.

Lemma peersSeen_perm order status :
  peersSeen order status ≡ₚ peersOf status.
Proof. unfold peersSeen, peersOf. now rewrite rangePeer_perm. Qed.

End OrderFacts.

Section KeyFacts.

Context `{Imp : Imports}.

Lemma elem_of_keys {V} (m : gmap string V) (k : string) :
  k ∈ (map_to_list m).*1 <-> is_Some (m !! k).
Proof.
  rewrite list_elem_of_fmap. split.
  - intros [[k' v] [-> Hin]]. apply elem_of_map_to_list in Hin. now exists v.
  - intros [v Hv]. exists (k, v). split; [reflexivity|].
    now apply elem_of_map_to_list.
Qed.

Lemma bucketOf_elem status k (l : list PeerStatus) p :
  p ∈ bucketOf status k l <->
  p ∈ l /\ toOwnedNodes status p = true /\ accountNameOf status p = k.
Proof.
  unfold bucketOf. rewrite !list_elem_of_In, List.filter_In.
  rewrite andb_true_iff, String.eqb_eq. tauto.
Qed.

Lemma snapshot_bucket order status prefs lock bs k :
  OwnedNodes (snapshot order status prefs lock bs) !! k =
    match bucketOf status k (peersSeen order status) with
    | [] => None
    | f => Some (sortNodes f)
    end.
Proof.
  cbn [snapshot OwnedNodes]. rewrite lookup_fmap, ownedSeen_lookup.
  now destruct (bucketOf _ _ _).
Qed.

Lemma snapshot_bucket_some order status prefs lock bs k :
  is_Some (OwnedNodes (snapshot order status prefs lock bs) !! k) <->
  exists p, p ∈ peersOf status /\ toOwnedNodes status p = true
            /\ accountNameOf status p = k.
Proof.
  rewrite snapshot_bucket.
  destruct (bucketOf status k (peersSeen order status)) as [|p b] eqn:Hb.
  - split; [intros [? [=]]|]. intros (p & Hin & Ho & Hk). exfalso.
    assert (p ∈ bucketOf status k (peersSeen order status)) as Hp.
    { apply bucketOf_elem. now rewrite peersSeen_perm. }
    rewrite Hb in Hp. now apply elem_of_nil in Hp.
  - split; [intros _|now eexists]. exists p.
    assert (p ∈ bucketOf status k (peersSeen order status)) as Hp
      by (rewrite Hb; constructor).
    apply bucketOf_elem in Hp. now rewrite peersSeen_perm in Hp.
Qed.

Lemma keys_perm (m1 m2 : gmap string (list PeerStatus)) :
  (forall k, is_Some (m1 !! k) <-> is_Some (m2 !! k)) ->
  (map_to_list m1).*1 ≡ₚ (map_to_list m2).*1.
Proof.
  intros H. apply NoDup_Permutation; try apply NoDup_fst_map_to_list.
  intros k. now rewrite !elem_of_keys.
Qed.

(** With a known tag [GetState] panics or returns the snapshot, and
    which of the two does not depend on the iteration order. *)
Lemma GetState_outcome order status prefs lock bs :
  NewIPNStateFromString (ipnstate.BackendState status) = (bs, None) ->
  GetState order (Fetched status) (Fetched prefs) (Fetched lock) =
    if existsb (needsSelf status) (peersOf status) then Panics nilDeref
    else Returns (snapshot order status prefs lock bs, None).
Proof.
  intros Htag. rewrite GetState_spec, Htag.
  now rewrite (existsb_perm _ _ _ (peersSeen_perm order status)).
Qed.

Lemma needsSelf_some status :
  existsb (needsSelf status) (peersOf status) = true <->
  ipnstate.Self status = None
  /\ exists p, p ∈ peersOf status /\ ipnstate.ExitNodeOption p = false.
Proof.
  rewrite existsb_exists. unfold needsSelf, toExitNodes. split.
  - intros (p & Hin & Hp). apply andb_true_iff in Hp as [Hp Hs].
    apply negb_true_iff in Hp. apply bool_decide_eq_true in Hs.
    split; [assumption|]. exists p. split; [now apply list_elem_of_In|easy].
  - intros (Hs & p & Hin & Hp). exists p.
    split; [now apply list_elem_of_In|]. rewrite Hp. cbn.
    now apply bool_decide_eq_true.
Qed.

End KeyFacts.

(** The library as it runs on short slices, with the host name for display
    name: the instance at which the statements below are evaluated. *)
Definition shortSlices : Imports :=
  {| PeerName := ipnstate.HostName;
     slices_SortFunc := fun A x cmp =>
       insertionSort (fun a b => cmp a b <? 0) x;
     slices_SortFunc_perm := fun A x cmp =>
       insertionSort_perm (fun a b => cmp a b <? 0) x;
     slices_SortFunc_sorted := fun A x cmp Hswo =>
       insertionSort_sorted (fun a b => cmp a b <? 0)
         (StrictWeakOrdering_asym cmp Hswo) x;
     slices_Sort := insertionSort string_less;
     slices_Sort_perm := insertionSort_perm string_less;
     slices_Sort_sorted := insertionSort_sorted string_less string_less_asym
  |}.

Definition sampleState : State :=
  snapshot (Imp := shortSlices) listedOrder sampleStatus samplePrefs
    sampleLock ipn.Running.

(** ** The properties of the snapshot *)

Section Properties.
Context `{Imp : Imports}.

(** C1. In a snapshot, [ExitNodes], [MyNodes], [TaggedNodes] and the
    buckets of [OwnedNodes] together hold the peers of the status, each
    as often as the status holds it; so the four sizes add up to the
    number of peers, and no peer appears twice when the peers of the
    status are distinct.  Each sequence holds the peers of its rule, each
    bucket the peers of rule 4 with its account name, and every peer
    falls under exactly one rule. *)
Theorem C1_partition order status rPrefs rLock st :
  GetState order (Fetched status) rPrefs rLock = Returns (st, None) ->
  let buckets := (map_to_list (OwnedNodes st)).*2 in
  ExitNodes st ++ MyNodes st ++ TaggedNodes st ++ concat buckets
    ≡ₚ peersOf status
  /\ (length (ExitNodes st) + length (MyNodes st)
      + length (TaggedNodes st) + list_sum (map length buckets)
      = length (peersOf status))%nat
  /\ (NoDup (peersOf status) ->
      NoDup (ExitNodes st ++ MyNodes st ++ TaggedNodes st ++ concat buckets))
  /\ Forall (fun p => toExitNodes p = true) (ExitNodes st)
  /\ Forall (fun p => toMyNodes status p = true) (MyNodes st)
  /\ Forall (fun p => toTaggedNodes status p = true) (TaggedNodes st)
  /\ (forall k l, OwnedNodes st !! k = Some l ->
        Forall (fun p => toOwnedNodes status p = true
                         /\ accountNameOf status p = k) l)
  /\ (forall p,
        (Nat.b2n (toExitNodes p) + Nat.b2n (toMyNodes status p)
         + Nat.b2n (toTaggedNodes status p)
         + Nat.b2n (toOwnedNodes status p) = 1)%nat).
Proof.
  intros H. apply GetState_returns in H
    as (status' & prefs & lock & bs & [= <-] & _ & _ & _ & _ & ->).
  cbn [snapshot ExitNodes MyNodes TaggedNodes OwnedNodes]. cbv zeta.
  set (seen := peersSeen order status).
  assert (sortNodes (List.filter toExitNodes seen)
          ++ sortNodes (List.filter (toMyNodes status) seen)
          ++ sortNodes (List.filter (toTaggedNodes status) seen)
          ++ flatOwned (sortNodes <$> ownedSeen order status)
          ≡ₚ peersOf status) as Hperm.
  { rewrite !sortNodes_perm, flatOwned_sorted. unfold ownedSeen.
    rewrite flatOwned_fold. unfold flatOwned at 1.
    rewrite map_to_list_empty. cbn [fmap list_fmap concat app].
    fold seen. rewrite rules_partition. apply peersSeen_perm. }
  split; [exact Hperm|]. split.
  { apply Permutation_length in Hperm.
    rewrite !length_app in Hperm. unfold flatOwned in Hperm.
    rewrite length_concat in Hperm. lia. }
  split.
  { intros Hnd. unfold flatOwned in Hperm. now rewrite Hperm. }
  assert (forall f l, Forall (fun p => f p = true)
                        (sortNodes (List.filter f l))) as Hall.
  { intros f l. rewrite sortNodes_perm. apply filter_true. }
  split; [apply Hall|]. split; [apply Hall|]. split; [apply Hall|].
  split; [|apply rules_exclusive].
  intros k l. rewrite lookup_fmap, ownedSeen_lookup.
  fold seen. destruct (bucketOf status k seen) as [|p b] eqn:Hb;
    [discriminate|].
  intros [= <-]. rewrite sortNodes_perm, <- Hb. unfold bucketOf.
  eapply Forall_impl; [apply filter_true|]. cbn beta.
  intros q Hq. apply andb_true_iff in Hq as [Ho Hk].
  now apply String.eqb_eq in Hk.
Qed.

(** C2. With the three fetches done and a known backend-state tag,
    [GetState] panics with a nil dereference when the self peer is
    absent and some peer is not an exit node option; it returns a
    snapshot when the self peer is present or every peer is an exit
    node option. *)
Theorem C2_nil_self_panics order status prefs lock bs :
  NewIPNStateFromString (ipnstate.BackendState status) = (bs, None) ->
  (ipnstate.Self status = None ->
   (exists p, p ∈ peersOf status /\ ipnstate.ExitNodeOption p = false) ->
   GetState order (Fetched status) (Fetched prefs) (Fetched lock)
   = Panics nilDeref)
  /\ (is_Some (ipnstate.Self status)
      \/ Forall (fun p => ipnstate.ExitNodeOption p = true) (peersOf status) ->
      GetState order (Fetched status) (Fetched prefs) (Fetched lock)
      = Returns (snapshot order status prefs lock bs, None)).
Proof.
  intros Htag. rewrite (GetState_outcome _ _ _ _ _ Htag).
  destruct (existsb (needsSelf status) (peersOf status)) eqn:Hex.
  - apply needsSelf_some in Hex as (Hs & p & Hin & Hp).
    split; [reflexivity|]. intros [[self Hsome]|Hall]; [congruence|].
    rewrite List.Forall_forall in Hall.
    apply list_elem_of_In, Hall in Hin. congruence.
  - split; [|reflexivity]. intros Hs Hp.
    assert (existsb (needsSelf status) (peersOf status) = true) as Htrue
      by now apply needsSelf_some.
    congruence.
Qed.

(** C3 (amended). Every peer sequence of a snapshot is in
    non-decreasing order of display name.  Two runs on the same input
    return the same result whenever no two different peers of the
    status share a display name; how peers with the same display name
    follow each other is left to the run. *)
Theorem C3_sorted_and_repeatable order1 order2 status rPrefs rLock :
  (forall st,
     GetState order1 (Fetched status) rPrefs rLock = Returns (st, None) ->
     StronglySorted nameLe (ExitNodes st)
     /\ StronglySorted nameLe (MyNodes st)
     /\ StronglySorted nameLe (TaggedNodes st)
     /\ forall k l, OwnedNodes st !! k = Some l -> StronglySorted nameLe l)
  /\ ((forall p q, p ∈ peersOf status -> q ∈ peersOf status ->
         PeerName p = PeerName q -> p = q) ->
      GetState order1 (Fetched status) rPrefs rLock
      = GetState order2 (Fetched status) rPrefs rLock).
Proof.
  split.
  { intros st H. apply GetState_returns in H
      as (status' & prefs & lock & bs & [= <-] & _ & _ & _ & _ & ->).
    cbn [snapshot ExitNodes MyNodes TaggedNodes OwnedNodes].
    repeat split; try apply sortNodes_sorted.
    intros k l. rewrite lookup_fmap.
    destruct (ownedSeen order1 status !! k); [|discriminate].
    intros [= <-]. apply sortNodes_sorted. }
  intros Hinj.
  destruct rPrefs as [prefs|e]; [|reflexivity].
  destruct rLock as [lock|e]; [|reflexivity].
  rewrite !GetState_spec.
  destruct (NewIPNStateFromString _) as [bs [err|]]; [reflexivity|].
  assert (peersSeen order1 status ≡ₚ peersSeen order2 status) as Hp
    by now rewrite !peersSeen_perm.
  rewrite (existsb_perm _ _ _ Hp).
  destruct (existsb _ _); [reflexivity|]. do 2 f_equal.
  assert (forall f,
    sortNodes (List.filter f (peersSeen order1 status))
    = sortNodes (List.filter f (peersSeen order2 status))) as Hsort.
  { intros f. apply sortNodes_unique; [now apply filter_perm|].
    intros p q Hin1 Hin2. apply Hinj.
    - apply list_elem_of_In, List.filter_In in Hin1 as [Hin1 _].
      apply list_elem_of_In in Hin1. now rewrite peersSeen_perm in Hin1.
    - apply list_elem_of_In, List.filter_In in Hin2 as [Hin2 _].
      apply list_elem_of_In in Hin2. now rewrite peersSeen_perm in Hin2. }
  assert (sortNodes <$> ownedSeen order1 status
          = sortNodes <$> ownedSeen order2 status) as Howned.
  { apply map_eq. intros k. rewrite !lookup_fmap, !ownedSeen_lookup.
    unfold bucketOf. pose proof (Hsort
      (fun p => toOwnedNodes status p
                && String.eqb (accountNameOf status p) k)) as Hk.
    pose proof (filter_perm
      (fun p => toOwnedNodes status p
                && String.eqb (accountNameOf status p) k) _ _ Hp) as Hq.
    destruct (List.filter _ (peersSeen order1 status)) as [|a1 b1],
      (List.filter _ (peersSeen order2 status)) as [|a2 b2].
    - reflexivity.
    - now apply Permutation_nil in Hq.
    - symmetry in Hq. now apply Permutation_nil in Hq.
    - cbn. now rewrite Hk. }
  apply State_ext; cbn [snapshot Prefs BackendState TSVersion AuthURL User
    Self LockKey IsLockedOut ExitNodes MyNodes TaggedNodes OwnedNodeKeys
    OwnedNodes CurrentExitNode CurrentExitNodeName RxBytes TxBytes];
    try reflexivity; try apply Hsort; try exact Howned.
  - apply sorted_strings_unique; try apply slices_Sort_sorted.
    rewrite !slices_Sort_perm, !rangeOwnedNodes_perm.
    apply keys_perm. intros k.
    rewrite <- (fmap_is_Some sortNodes (ownedSeen order1 status !! k)).
    rewrite <- (fmap_is_Some sortNodes (ownedSeen order2 status !! k)).
    rewrite <- !lookup_fmap. now rewrite Howned.
  - now rewrite Hsort.
  - rewrite !sum64_wrap by reflexivity. f_equal. f_equal.
    apply sumZ_perm. now apply (fmap_Permutation ipnstate.RxBytes).
  - rewrite !sum64_wrap by reflexivity. f_equal. f_equal.
    apply sumZ_perm. now apply (fmap_Permutation ipnstate.TxBytes).
Qed.

(** C4 (amended). [RxBytes] and [TxBytes] are the sums of the peers'
    counters in [int64] arithmetic: the exact sum over all peers of the
    status, whatever their class and the order they are met in, reduced
    to the [int64] range; they are the exact sums when those fit. *)
Theorem C4_traffic_sums order status rPrefs rLock st :
  GetState order (Fetched status) rPrefs rLock = Returns (st, None) ->
  let rx := sumZ (ipnstate.RxBytes <$> peersOf status) in
  let tx := sumZ (ipnstate.TxBytes <$> peersOf status) in
  RxBytes st = wrap64 rx /\ TxBytes st = wrap64 tx
  /\ (- 2 ^ 63 <= rx < 2 ^ 63 -> RxBytes st = rx)
  /\ (- 2 ^ 63 <= tx < 2 ^ 63 -> TxBytes st = tx).
Proof.
  intros H. apply GetState_returns in H
    as (status' & prefs & lock & bs & [= <-] & _ & _ & _ & _ & ->).
  cbn [snapshot RxBytes TxBytes]. cbv zeta.
  assert (peersSeen order status ≡ₚ peersOf status) as Hp.
  { unfold peersSeen, peersOf. now rewrite rangePeer_perm. }
  rewrite !sum64_wrap by reflexivity. rewrite !Z.add_0_l.
  rewrite (sumZ_perm (map ipnstate.RxBytes (peersSeen order status))
             (ipnstate.RxBytes <$> peersOf status))
    by (now apply fmap_Permutation).
  rewrite (sumZ_perm (map ipnstate.TxBytes (peersSeen order status))
             (ipnstate.TxBytes <$> peersOf status))
    by (now apply fmap_Permutation).
  repeat split; try reflexivity; intros; now apply wrap64_small.
Qed.

(** C5. The version in the snapshot is the daemon's version string up
    to its first ['-'], all of it if there is none.  Normalizing a
    normalized string changes nothing. *)
Theorem C5_version_normalization :
  (forall state,
     trimVersion state =
       Returns (set_TSVersion state (before "-" (TSVersion state))))
  /\ (forall order status rPrefs rLock st,
        GetState order (Fetched status) rPrefs rLock = Returns (st, None) ->
        TSVersion st = before "-" (ipnstate.Version status))
  /\ (forall a b, hasByte "-" a = false ->
        before "-" (String.append a (String "-" b)) = a)
  /\ (forall s, hasByte "-" s = false -> before "-" s = s)
  /\ (forall s, before "-" (before "-" s) = before "-" s)
  /\ (forall state state',
        trimVersion state = Returns state' ->
        trimVersion state' = Returns state')
  /\ before "-" "1.70.0-abc123" = "1.70.0"
  /\ before "-" "1.70.0" = "1.70.0".
Proof.
  assert (forall s, before "-" (before "-" s) = before "-" s) as Hidem
    by (intros s; apply before_all, before_hasByte).
  split; [apply trimVersion_spec|].
  split.
  { intros order status rPrefs rLock st H.
    apply GetState_returns in H
      as (status' & prefs & lock & bs & [= <-] & _ & _ & _ & _ & ->).
    reflexivity. }
  split; [apply before_append|]. split; [apply before_all|].
  split; [exact Hidem|]. split; [|split; reflexivity].
  intros state state'. rewrite !trimVersion_spec. intros [= <-].
  cbn [TSVersion set_TSVersion]. rewrite Hidem. now destruct state.
Qed.

(** C6. In a snapshot, [LockKey] is set exactly when the lock is
    enabled, the node key is there and the public key is not zero, and
    then it is that public key; [IsLockedOut] is true exactly when
    [LockKey] is set, the node key is unsigned and the backend state is
    [Running].  So with the lock disabled [LockKey] is nil and
    [IsLockedOut] false, and with backend state [Stopped] [IsLockedOut]
    is false. *)
Theorem C6_lock_evaluation order status rPrefs lock st :
  GetState order (Fetched status) rPrefs (Fetched lock) = Returns (st, None) ->
  NewIPNStateFromString (ipnstate.BackendState status) = (BackendState st, None)
  /\ (is_Some (LockKey st) <->
        ipnstate.Enabled lock = true /\ ipnstate.NodeKey lock <> None
        /\ key.IsZero (ipnstate.LPublicKey lock) = false)
  /\ (is_Some (LockKey st) -> LockKey st = Some (ipnstate.LPublicKey lock))
  /\ (IsLockedOut st = true <->
        is_Some (LockKey st) /\ ipnstate.NodeKeySigned lock = false
        /\ BackendState st = ipn.Running)
  /\ (ipnstate.Enabled lock = false ->
        LockKey st = None /\ IsLockedOut st = false)
  /\ (BackendState st = ipn.Stopped -> IsLockedOut st = false).
Proof.
  intros H. apply GetState_returns in H
    as (status' & prefs & lock' & bs & [= <-] & _ & [= <-] & Htag & _ & ->).
  cbn [snapshot LockKey IsLockedOut BackendState]. unfold lockOn.
  split; [assumption|].
  destruct (ipnstate.Enabled lock), (ipnstate.NodeKey lock) as [nk|],
    (key.IsZero (ipnstate.LPublicKey lock)),
    (ipnstate.NodeKeySigned lock), bs; cbn;
    repeat split; intros; try congruence; try (eexists; reflexivity);
    try tauto;
    repeat match goal with
           | H : is_Some None |- _ => destruct H; discriminate
           | H : _ /\ _ |- _ => destruct H
           end; try congruence.
Qed.

(** C7. Without a current exit node, [CurrentExitNode] is nil and
    [CurrentExitNodeName] empty.  With one, [CurrentExitNode] is its id,
    and [CurrentExitNodeName] is the display name of the first peer of
    the sorted [ExitNodes] with that id, or empty when no peer of
    [ExitNodes] has it. *)
Theorem C7_exit_node_resolution order status rPrefs rLock st :
  GetState order (Fetched status) rPrefs rLock = Returns (st, None) ->
  (ipnstate.ExitNodeStatus_ status = None ->
     CurrentExitNode st = None /\ CurrentExitNodeName st = "")
  /\ (forall ens, ipnstate.ExitNodeStatus_ status = Some ens ->
        CurrentExitNode st = Some (ipnstate.EID ens)
        /\ ((exists l1 p l2,
               ExitNodes st = l1 ++ p :: l2
               /\ ipnstate.ID p = ipnstate.EID ens
               /\ Forall (fun q => ipnstate.ID q <> ipnstate.EID ens) l1
               /\ CurrentExitNodeName st = PeerName p)
            \/ (Forall (fun q => ipnstate.ID q <> ipnstate.EID ens)
                  (ExitNodes st)
                /\ CurrentExitNodeName st = ""))).
Proof.
  intros H. apply GetState_returns in H
    as (status' & prefs & lock & bs & [= <-] & _ & _ & _ & _ & ->).
  cbn [snapshot CurrentExitNode CurrentExitNodeName ExitNodes].
  split; [now intros ->|]. intros ens ->. split; [reflexivity|].
  unfold firstNameById.
  pose proof (find_split
    (fun p => String.eqb (ipnstate.ID p) (ipnstate.EID ens))
    (sortNodes (List.filter toExitNodes (peersSeen order status)))) as Hf.
  destruct (List.find _ _) as [p|].
  - left. destruct Hf as (l1 & l2 & Hl & Hp & Hl1).
    exists l1, p, l2. split; [assumption|].
    split; [now apply String.eqb_eq|]. split; [|reflexivity].
    eapply Forall_impl; [exact Hl1|]. intros q Hq. now apply String.eqb_neq.
  - right. split; [|reflexivity].
    eapply Forall_impl; [exact Hf|]. intros q Hq. now apply String.eqb_neq.
Qed.

(** C8. A backend-state tag outside the seven known ones makes
    [NewIPNStateFromString] return an error whose message ends with the
    tag, and [GetState] then returns the zero [State] with an error that
    wraps it and names the tag too; each of the seven known tags gives
    its value of the enumeration and no error.  Whenever [GetState]
    returns an error, the state it returns is the zero [State]. *)
Theorem C8_unknown_backend_state :
  (forall tag, tag ∉ knownTags.*1 ->
    exists err,
      NewIPNStateFromString tag = (ipn.NoState, Some err)
      /\ Error err = String.append "unknown ipn state: " tag
      /\ includes (Error err) tag
      /\ forall order status prefs lock,
           ipnstate.BackendState status = tag ->
           exists err',
             GetState order (Fetched status) (Fetched prefs) (Fetched lock)
             = Returns (State_zero, Some err')
             /\ Unwrap err' = Some err
             /\ includes (Error err') tag)
  /\ Forall (fun tv => NewIPNStateFromString tv.1 = (tv.2, None)) knownTags
  /\ (forall order rStatus rPrefs rLock st err,
        GetState order rStatus rPrefs rLock = Returns (st, Some err) ->
        st = State_zero).
Proof.
  split; [|split].
  - intros tag Htag. exists (Errorf_s "unknown ipn state: " tag).
    split; [now apply NewIPNStateFromString_unknown|].
    split; [reflexivity|].
    split; [exists "unknown ipn state: ", ""; cbn [Error Errorf_s];
            now rewrite string_append_nil_r|].
    intros order status prefs lock Hs.
    exists (Errorf_w "cannot get status from state: "
              (Errorf_s "unknown ipn state: " tag)).
    rewrite GetState_spec, Hs, NewIPNStateFromString_unknown by assumption.
    split; [reflexivity|]. split; [reflexivity|].
    exists "cannot get status from state: unknown ipn state: ", "".
    rewrite string_append_nil_r. reflexivity.
  - repeat constructor.
  - intros order [status|e1] [prefs|e2] [lock|e3] st err;
      try (now intros [= <- _]).
    rewrite GetState_spec.
    destruct (NewIPNStateFromString _) as [bs [e|]]; [now intros [= <- _]|].
    destruct (existsb _ _); discriminate.
Qed.

(** C9. A peer that reaches rule 4 is in the bucket of [OwnedNodes]
    whose key is its owner's display name, or the login name when the
    display name is empty, or the empty string when the owner is not in
    [status.User].  [OwnedNodeKeys] is sorted, has no duplicates, and
    holds exactly the keys of [OwnedNodes], which are exactly the
    account names of the peers that reach rule 4. *)
Theorem C9_owned_buckets order status rPrefs rLock st :
  GetState order (Fetched status) rPrefs rLock = Returns (st, None) ->
  (forall p, p ∈ peersOf status -> toOwnedNodes status p = true ->
     exists l, OwnedNodes st !! accountNameOf status p = Some l /\ p ∈ l)
  /\ (forall p user,
        ipnstate.User status !! ipnstate.UserID p = Some user ->
        (tailcfg.DisplayName user <> "" ->
           accountNameOf status p = tailcfg.DisplayName user)
        /\ (tailcfg.DisplayName user = "" ->
              accountNameOf status p = tailcfg.LoginName user))
  /\ (forall p, ipnstate.User status !! ipnstate.UserID p = None ->
        accountNameOf status p = "")
  /\ slices_IsSorted (OwnedNodeKeys st) = true
  /\ NoDup (OwnedNodeKeys st)
  /\ (forall k, k ∈ OwnedNodeKeys st <-> is_Some (OwnedNodes st !! k))
  /\ (forall k, is_Some (OwnedNodes st !! k) <->
        exists p, p ∈ peersOf status /\ toOwnedNodes status p = true
                  /\ accountNameOf status p = k).
Proof.
  intros H. apply GetState_returns in H
    as (status' & prefs & lock & bs & [= <-] & _ & _ & _ & _ & ->).
  split.
  { intros p Hin Ho. rewrite snapshot_bucket.
    assert (p ∈ bucketOf status (accountNameOf status p)
                  (peersSeen order status)) as Hp.
    { apply bucketOf_elem. now rewrite peersSeen_perm. }
    destruct (bucketOf _ _ _) as [|q b] eqn:Hb;
      [now apply elem_of_nil in Hp|].
    eexists. split; [reflexivity|]. now rewrite sortNodes_perm. }
  split.
  { intros p user Hu. unfold accountNameOf. rewrite Hu.
    destruct (String.eqb_spec (tailcfg.DisplayName user) ""); split;
      intros; congruence. }
  split.
  { intros p Hu. unfold accountNameOf. now rewrite Hu. }
  cbn [snapshot OwnedNodeKeys].
  split; [apply slices_Sort_sorted|].
  split.
  { rewrite slices_Sort_perm, rangeOwnedNodes_perm.
    apply NoDup_fst_map_to_list. }
  split; [|intros k; apply snapshot_bucket_some].
  intros k. rewrite slices_Sort_perm, rangeOwnedNodes_perm, elem_of_keys.
  cbn [snapshot OwnedNodes]. rewrite lookup_fmap. symmetry.
  apply fmap_is_Some.
Qed.

(** C10. With the self peer present, [GetState] returns (given the
    fetches and a known tag) and [User] is a pointer to the profile
    [status.User] holds for the self peer's owner, which is the zero
    profile when there is no entry; [User] is nil only when the self peer
    is absent.  Both variants of [GetState] agree on this. *)
Theorem C10_user_of_self order status rPrefs rLock :
  let userOk (u : option tailcfg.UserProfile) :=
    (forall self, ipnstate.Self status = Some self ->
       u = Some (default tailcfg.zero
                   (ipnstate.User status !! ipnstate.UserID self)))
    /\ (forall self, ipnstate.Self status = Some self ->
          ipnstate.User status !! ipnstate.UserID self = None ->
          u = Some tailcfg.zero)
    /\ (u = None <-> ipnstate.Self status = None) in
  (forall st,
     GetState order (Fetched status) rPrefs rLock = Returns (st, None) ->
     userOk (User st))
  /\ (forall st,
        Superseded.GetState order (Fetched status) rPrefs rLock
        = Returns (st, None) ->
        userOk (Superseded.User st))
  /\ (forall self prefs lock bs,
        ipnstate.Self status = Some self ->
        NewIPNStateFromString (ipnstate.BackendState status) = (bs, None) ->
        exists st,
          GetState order (Fetched status) (Fetched prefs) (Fetched lock)
          = Returns (st, None)
          /\ User st = Some (default tailcfg.zero
                               (ipnstate.User status !! ipnstate.UserID self))).
Proof.
  assert (forall u,
    u = match ipnstate.Self status with
        | Some self =>
            Some (default tailcfg.zero
                    (ipnstate.User status !! ipnstate.UserID self))
        | None => None
        end ->
    (forall self, ipnstate.Self status = Some self ->
       u = Some (default tailcfg.zero
                   (ipnstate.User status !! ipnstate.UserID self)))
    /\ (forall self, ipnstate.Self status = Some self ->
          ipnstate.User status !! ipnstate.UserID self = None ->
          u = Some tailcfg.zero)
    /\ (u = None <-> ipnstate.Self status = None)) as Hok.
  { intros u ->. destruct (ipnstate.Self status) as [self|].
    - split; [now intros ? [= <-]|].
      split; [intros ? [= <-] ->; reflexivity|]. split; discriminate.
    - split; [discriminate|]. split; [discriminate|]. tauto. }
  cbv zeta. split; [|split].
  - intros st H. apply Hok. apply GetState_returns in H
      as (status' & prefs & lock & bs & [= <-] & _ & _ & _ & _ & ->).
    reflexivity.
  - intros st H. apply Hok. unfold Superseded.GetState in H.
    destruct rPrefs as [prefs|e]; [|discriminate].
    destruct rLock as [lock|e]; [|discriminate].
    destruct (NewIPNStateFromString _) as [bs [err|]]; [discriminate|].
    match type of H with
    | mbind _ ?m = _ => destruct m as [v|msg]; [|discriminate]
    end.
    cbn in H. injection H as <-. reflexivity.
  - intros self prefs lock bs Hself Htag.
    exists (snapshot order status prefs lock bs).
    rewrite (GetState_outcome _ _ _ _ _ Htag).
    replace (existsb (needsSelf status) (peersOf status)) with false.
    + split; [reflexivity|]. cbn [snapshot User]. now rewrite Hself.
    + symmetry. apply not_true_iff_false. intros Hex.
      apply needsSelf_some in Hex as [Hnone _]. congruence.
Qed.

End Properties.

(** ** The statements at sample inputs *)

(** The sample run returns [sampleState]. *)
Lemma sample_run :
  GetState (Imp := shortSlices) listedOrder (Fetched sampleStatus)
    (Fetched samplePrefs) (Fetched sampleLock)
  = Returns (sampleState, None).
Proof. vm_compute. reflexivity. Defined.

(** No two peers of the sample share a display name. *)
Lemma sample_names_differ (p q : PeerStatus) :
  p ∈ peersOf sampleStatus -> q ∈ peersOf sampleStatus ->
  PeerName (Imports := shortSlices) p
  = PeerName (Imports := shortSlices) q ->
  p = q.
Proof.
  intros Hp Hq. apply list_elem_of_In in Hp, Hq. vm_compute in Hp, Hq.
  repeat (destruct Hp as [<-|Hp]); try contradiction;
    repeat (destruct Hq as [<-|Hq]); try contradiction;
    vm_compute; intros H.
  all: try reflexivity.
  all: discriminate H.
Defined.

(** C1 at the sample: eight peers, all of them placed. *)
Lemma C1_partition_witness :
  GetState (Imp := shortSlices) listedOrder (Fetched sampleStatus)
    (Fetched samplePrefs) (Fetched sampleLock)
  = Returns (sampleState, None)
  /\ ExitNodes sampleState ++ MyNodes sampleState ++ TaggedNodes sampleState
     ++ concat (map_to_list (OwnedNodes sampleState)).*2
     ≡ₚ peersOf sampleStatus
  /\ (length (ExitNodes sampleState) + length (MyNodes sampleState)
      + length (TaggedNodes sampleState)
      + list_sum (map length (map_to_list (OwnedNodes sampleState)).*2)
      = length (peersOf sampleStatus))%nat.
Proof.
  assert (GetState (Imp := shortSlices) listedOrder (Fetched sampleStatus)
            (Fetched samplePrefs) (Fetched sampleLock)
          = Returns (sampleState, None)) as H by (vm_compute; reflexivity).
  split; [exact H|].
  destruct (C1_partition listedOrder sampleStatus (Fetched samplePrefs)
              (Fetched sampleLock) sampleState H) as (H1 & H2 & _).
  split; [exact H1|exact H2].
Defined.

(** C2 at a status without self peer whose one peer is not an exit node
    option: [GetState] panics. *)
Lemma C2_nil_self_panics_witness :
  NewIPNStateFromString (ipnstate.BackendState nilSelfStatus)
  = (ipn.NeedsLogin, None)
  /\ ipnstate.Self nilSelfStatus = None
  /\ (exists p, p ∈ peersOf nilSelfStatus
                /\ ipnstate.ExitNodeOption p = false)
  /\ GetState (Imp := shortSlices) listedOrder (Fetched nilSelfStatus)
       (Fetched samplePrefs) (Fetched sampleLock)
     = Panics nilDeref.
Proof.
  assert (exists p, p ∈ peersOf nilSelfStatus
                    /\ ipnstate.ExitNodeOption p = false) as Hp.
  { exists (mkPeer "n41" 41 "printer" 5 None 0 0 false).
    split; [vm_compute; constructor|reflexivity]. }
  split; [reflexivity|]. split; [reflexivity|]. split; [exact Hp|].
  exact (proj1 (C2_nil_self_panics (Imp := shortSlices) listedOrder
                  nilSelfStatus samplePrefs sampleLock ipn.NeedsLogin
                  eq_refl) eq_refl Hp).
Defined.

(** C3, as first stated, fails: two exit node options share the display
    name and the two runs meet them in opposite orders; on a slice of two
    elements the sort is the insertion sort, which leaves them as met. *)
Lemma C3_counterexample :
  exists st1 st2,
    GetState (Imp := shortSlices) listedOrder (Fetched twinStatus)
      (Fetched samplePrefs) (Fetched sampleLock) = Returns (st1, None)
    /\ GetState (Imp := shortSlices) reversedOrder (Fetched twinStatus)
         (Fetched samplePrefs) (Fetched sampleLock) = Returns (st2, None)
    /\ map ipnstate.ID (ExitNodes st1) = ["nB"; "nA"]
    /\ map ipnstate.ID (ExitNodes st2) = ["nA"; "nB"]
    /\ ExitNodes st1 <> ExitNodes st2.
Proof.
  eexists. eexists.
  split; [vm_compute; reflexivity|].
  split; [vm_compute; reflexivity|].
  split; [reflexivity|]. split; [reflexivity|].
  cbn. discriminate.
Qed.

(** C3 at the sample, met in the listed and in the opposite order. *)
Lemma C3_sorted_and_repeatable_witness :
  (forall p q, p ∈ peersOf sampleStatus -> q ∈ peersOf sampleStatus ->
     PeerName (Imports := shortSlices) p
     = PeerName (Imports := shortSlices) q ->
     p = q)
  /\ StronglySorted (nameLe (Imp := shortSlices)) (ExitNodes sampleState)
  /\ GetState (Imp := shortSlices) listedOrder (Fetched sampleStatus)
       (Fetched samplePrefs) (Fetched sampleLock)
     = GetState (Imp := shortSlices) reversedOrder (Fetched sampleStatus)
         (Fetched samplePrefs) (Fetched sampleLock).
Proof.
  split; [exact sample_names_differ|].
  destruct (C3_sorted_and_repeatable (Imp := shortSlices) listedOrder
              reversedOrder sampleStatus (Fetched samplePrefs)
              (Fetched sampleLock)) as [Hsorted Hsame].
  split.
  - exact (proj1 (Hsorted sampleState sample_run)).
  - exact (Hsame sample_names_differ).
Defined.

(** C4, as first stated, fails: the received bytes of two peers add up
    to [2^63], and [RxBytes] is [-2^63]. *)
Lemma C4_counterexample :
  exists st,
    GetState (Imp := shortSlices) listedOrder (Fetched overflowStatus)
      (Fetched samplePrefs) (Fetched sampleLock) = Returns (st, None)
    /\ sumZ (ipnstate.RxBytes <$> peersOf overflowStatus)
       = 9223372036854775808
    /\ RxBytes st = -9223372036854775808
    /\ RxBytes st <> sumZ (ipnstate.RxBytes <$> peersOf overflowStatus).
Proof.
  eexists. split; [vm_compute; reflexivity|].
  split; [vm_compute; reflexivity|]. split; [reflexivity|].
  vm_compute. discriminate.
Qed.

(** C4 at the sample: the received bytes add up to 3600. *)
Lemma C4_traffic_sums_witness :
  GetState (Imp := shortSlices) listedOrder (Fetched sampleStatus)
    (Fetched samplePrefs) (Fetched sampleLock)
  = Returns (sampleState, None)
  /\ - 2 ^ 63 <= sumZ (ipnstate.RxBytes <$> peersOf sampleStatus) < 2 ^ 63
  /\ RxBytes sampleState = sumZ (ipnstate.RxBytes <$> peersOf sampleStatus)
  /\ RxBytes sampleState = 3600.
Proof.
  assert (- 2 ^ 63 <= sumZ (ipnstate.RxBytes <$> peersOf sampleStatus) < 2 ^ 63)
    as Hr by (vm_compute; split; [discriminate|reflexivity]).
  split; [exact sample_run|]. split; [exact Hr|].
  destruct (C4_traffic_sums listedOrder sampleStatus (Fetched samplePrefs)
              (Fetched sampleLock) sampleState sample_run)
    as (_ & _ & Hrx & _).
  split; [exact (Hrx Hr)|reflexivity].
Defined.

(** C5 at the sample: the build suffix of the version is cut off. *)
Lemma C5_version_normalization_witness :
  GetState (Imp := shortSlices) listedOrder (Fetched sampleStatus)
    (Fetched samplePrefs) (Fetched sampleLock)
  = Returns (sampleState, None)
  /\ ipnstate.Version sampleStatus = "1.70.0-abc123"
  /\ TSVersion sampleState = "1.70.0"
  /\ hasByte "-" "1.70.0" = false
  /\ before "-" "1.70.0" = "1.70.0".
Proof.
  destruct (C5_version_normalization (Imp := shortSlices))
    as (_ & Hrun & _ & Hall & _).
  split; [exact sample_run|]. split; [reflexivity|].
  split.
  - exact (Hrun listedOrder sampleStatus (Fetched samplePrefs)
             (Fetched sampleLock) sampleState sample_run).
  - split; [reflexivity|]. exact (Hall "1.70.0" eq_refl).
Defined.

(** C6 at the sample: lock on, node key unsigned, backend running. *)
Lemma C6_lock_evaluation_witness :
  GetState (Imp := shortSlices) listedOrder (Fetched sampleStatus)
    (Fetched samplePrefs) (Fetched sampleLock)
  = Returns (sampleState, None)
  /\ LockKey sampleState = Some 77%N
  /\ IsLockedOut sampleState = true.
Proof.
  destruct (C6_lock_evaluation (Imp := shortSlices) listedOrder sampleStatus
              (Fetched samplePrefs) sampleLock sampleState sample_run)
    as (_ & Hkey & Hval & Hout & _).
  assert (is_Some (LockKey sampleState)) as Hsome.
  { apply Hkey. split; [reflexivity|]. split; [discriminate|reflexivity]. }
  split; [exact sample_run|]. split; [exact (Hval Hsome)|].
  apply Hout. split; [exact Hsome|]. split; reflexivity.
Defined.

(** C7 at the sample: the current exit node is found by its id. *)
Lemma C7_exit_node_resolution_witness :
  GetState (Imp := shortSlices) listedOrder (Fetched sampleStatus)
    (Fetched samplePrefs) (Fetched sampleLock)
  = Returns (sampleState, None)
  /\ CurrentExitNode sampleState = Some "n3"
  /\ CurrentExitNodeName sampleState = "oslo".
Proof.
  destruct (C7_exit_node_resolution (Imp := shortSlices) listedOrder
              sampleStatus (Fetched samplePrefs) (Fetched sampleLock)
              sampleState sample_run) as [_ Hset].
  destruct (Hset _ eq_refl) as [Hid _].
  split; [exact sample_run|]. split; [exact Hid|reflexivity].
Defined.

(** C8 at a tag outside the enumeration. *)
Lemma C8_unknown_backend_state_witness :
  ("Weird" ∉ knownTags.*1)
  /\ (exists err,
        NewIPNStateFromString "Weird" = (ipn.NoState, Some err)
        /\ Error err = "unknown ipn state: Weird").
Proof.
  assert ("Weird" ∉ knownTags.*1) as Hout.
  { intros Hin. apply list_elem_of_In in Hin. vm_compute in Hin.
    repeat (destruct Hin as [Hin|Hin]; [discriminate Hin|]). exact Hin. }
  split; [exact Hout|].
  destruct (proj1 (C8_unknown_backend_state (Imp := shortSlices))
              "Weird" Hout) as (err & Herr & Hmsg & _).
  exists err. split; [exact Herr|exact Hmsg].
Defined.

(** C9 at the sample: three account buckets. *)
Lemma C9_owned_buckets_witness :
  GetState (Imp := shortSlices) listedOrder (Fetched sampleStatus)
    (Fetched samplePrefs) (Fetched sampleLock)
  = Returns (sampleState, None)
  /\ OwnedNodeKeys sampleState = [""; "Bob"; "carol@example.com"]
  /\ slices_IsSorted (OwnedNodeKeys sampleState) = true
  /\ NoDup (OwnedNodeKeys sampleState).
Proof.
  destruct (C9_owned_buckets (Imp := shortSlices) listedOrder sampleStatus
              (Fetched samplePrefs) (Fetched sampleLock) sampleState
              sample_run) as (_ & _ & _ & Hsorted & Hnodup & _).
  split; [exact sample_run|]. split; [reflexivity|].
  split; [exact Hsorted|exact Hnodup].
Defined.

(** C10 at a status whose self peer has an owner outside the user
    directory, for both variants. *)
Lemma C10_user_of_self_witness :
  (exists st,
     GetState (Imp := shortSlices) listedOrder (Fetched orphanStatus)
       (Fetched samplePrefs) (Fetched sampleLock)
     = Returns (st, None)
     /\ User st = Some tailcfg.zero)
  /\ (exists st,
        Superseded.GetState (Imp := shortSlices) listedOrder
          (Fetched orphanStatus) (Fetched samplePrefs) (Fetched sampleLock)
        = Returns (st, None)
        /\ Superseded.User st = Some tailcfg.zero).
Proof.
  destruct (C10_user_of_self (Imp := shortSlices) listedOrder orphanStatus
              (Fetched samplePrefs) (Fetched sampleLock)) as (Hnew & Hold & _).
  split.
  - eexists. split; [vm_compute; reflexivity|].
    refine (proj1 (proj2 (Hnew _ _)) _ eq_refl eq_refl).
    vm_compute. reflexivity.
  - eexists. split; [vm_compute; reflexivity|].
    refine (proj1 (proj2 (Hold _ _)) _ eq_refl eq_refl).
    vm_compute. reflexivity.
Defined.

(** ** More of the package: further facts *)

Section MoreFacts.
Context `{Imp : Imports}.

Lemma NewIPNStateFromString_ok_inv tag bs :
  NewIPNStateFromString tag = (bs, None) -> (tag, bs) ∈ knownTags.
Proof.
  intros H. destruct (NewIPNStateFromString_cases tag) as [[bs' Hin]|Hout].
  - rewrite (NewIPNStateFromString_known _ _ Hin) in H.
    now injection H as <-.
  - rewrite (NewIPNStateFromString_unknown _ Hout) in H. discriminate.
Qed.

Lemma knownTags_inj v1 v2 bs :
  (v1, bs) ∈ knownTags -> (v2, bs) ∈ knownTags -> v1 = v2.
Proof.
  unfold knownTags. rewrite !elem_of_cons, !elem_of_nil.
  intros H1 H2.
  repeat destruct H1 as [H1|H1]; try contradiction;
    repeat destruct H2 as [H2|H2]; try contradiction;
    congruence.
Qed.

(** The version up to its first ['-'], on strings. *)
Lemma cutVersion_spec (v : string) :
  (if negb (strings_IndexByte v "-" =? -1)
   then slice_to v (strings_IndexByte v "-")
   else mret v) = Returns (before "-" v).
Proof.
  unfold strings_IndexByte.
  pose proof (IndexByte_from_spec "-" v 0 ltac:(lia)) as H.
  destruct (hasByte "-" v).
  - destruct H as [-> Hlen]. rewrite Z.add_0_l.
    replace (Z.of_nat _ =? -1) with false by (symmetry; apply Z.eqb_neq; lia).
    cbn [negb]. unfold slice_to.
    replace (_ && _) with true
      by (symmetry; apply andb_true_iff; split; apply Z.leb_le; lia).
    now rewrite Nat2Z.id, substring_before.
  - destruct H as [-> ->]. reflexivity.
Qed.

Lemma sumTraffic_spec (peers : list PeerStatus) :
  Superseded.sumTraffic peers =
    (sum64 0 (map ipnstate.TxBytes peers),
     sum64 0 (map ipnstate.RxBytes peers)).
Proof.
  unfold Superseded.sumTraffic, sum64.
  generalize 0 at 1 3 as tx. generalize 0 as rx.
  induction peers as [|p peers IH]; intros rx tx; [reflexivity|].
  cbn [fold_left map]. now rewrite IH.
Qed.

Lemma exitNodeName_spec (nodes : list PeerStatus) id :
  Superseded.exitNodeName nodes id = firstNameById nodes id.
Proof.
  unfold firstNameById.
  induction nodes as [|p nodes IH]; cbn; [reflexivity|].
  now destruct (String.eqb (ipnstate.ID p) id).
Qed.

Lemma Superseded_GetState_spec order status prefs lock :
  Superseded.GetState order (Fetched status) (Fetched prefs) (Fetched lock) =
    match NewIPNStateFromString (ipnstate.BackendState status) with
    | (_, Some err) =>
        Returns (Superseded.State_zero,
                 Some (Errorf_w "cannot get status from state: " err))
    | (bs, None) =>
        Returns (supersededSnapshot order status prefs lock bs, None)
    end.
Proof.
  unfold Superseded.GetState.
  destruct (NewIPNStateFromString _) as [bs [err|]]; [reflexivity|].
  rewrite cutVersion_spec. cbn [mbind outcome_bind mret outcome_ret].
  rewrite sumTraffic_spec. cbn [fst snd].
  unfold supersededSnapshot, getSortedExitNodesOf. fold (lockOn lock).
  do 2 f_equal. f_equal.
  destruct (ipnstate.ExitNodeStatus_ status); [|reflexivity].
  apply exitNodeName_spec.
Qed.

Lemma sum64_perm (l1 l2 : list Z) : l1 ≡ₚ l2 -> sum64 0 l1 = sum64 0 l2.
Proof.
  intros H. rewrite !sum64_wrap by reflexivity.
  now rewrite (sumZ_perm _ _ H).
Qed.

End MoreFacts.

(** ** More of the package: properties *)

Section MoreProperties.
Context `{Imp : Imports}.

(** X1. [NewIPNStateFromString] returns no error exactly on the seven
    tags of its table; on them it is one-to-one, and every value of the
    enumeration is the value of some tag. *)
Theorem X1_tags_one_to_one :
  (forall tag bs,
     NewIPNStateFromString tag = (bs, None) <-> (tag, bs) ∈ knownTags)
  /\ (forall tag1 tag2 bs,
        NewIPNStateFromString tag1 = (bs, None) ->
        NewIPNStateFromString tag2 = (bs, None) -> tag1 = tag2)
  /\ (forall bs, exists tag, NewIPNStateFromString tag = (bs, None)).
Proof.
  split; [|split].
  - intros tag bs. split.
    + apply NewIPNStateFromString_ok_inv.
    + apply NewIPNStateFromString_known.
  - intros tag1 tag2 bs H1 H2.
    apply NewIPNStateFromString_ok_inv in H1, H2.
    eapply knownTags_inj; eassumption.
  - intros [].
    + now exists "NoState".
    + now exists "InUseOtherUser".
    + now exists "NeedsLogin".
    + now exists "NeedsMachineAuth".
    + now exists "Stopped".
    + now exists "Starting".
    + now exists "Running".
Qed.

(** X2. The comparison [sortNodes] hands to [slices.SortFunc] is a
    strict weak ordering, as [slices.SortFunc] requires; it is zero
    exactly on equal display names and changes sign when its arguments
    are swapped.  [sortNodes] keeps the length and the members of the
    slice. *)
Theorem X2_sortNodes_comparison :
  StrictWeakOrdering byPeerName
  /\ (forall a b, byPeerName a b = 0 <-> PeerName a = PeerName b)
  /\ (forall a b, byPeerName a b < 0 <-> 0 < byPeerName b a)
  /\ (forall nodes,
        length (sortNodes nodes) = length nodes
        /\ forall p, p ∈ sortNodes nodes <-> p ∈ nodes).
Proof.
  split; [apply byPeerName_swo|]. split; [|split].
  - intros a b. unfold byPeerName. apply strings_Compare_zero.
  - intros a b. unfold byPeerName, strings_Compare.
    rewrite (String.compare_antisym (PeerName b) (PeerName a)).
    destruct (String.compare (PeerName a) (PeerName b)); cbn; lia.
  - intros nodes. split.
    + apply Permutation_length, sortNodes_perm.
    + intros p. now rewrite sortNodes_perm.
Qed.

(** X3. A snapshot hands through what it was given: [Prefs] is the
    fetched preferences, [AuthURL] and [Self] are those of the status,
    and [BackendState] is the value of the status's tag. *)
Theorem X3_passed_through order status prefs rLock st :
  GetState order (Fetched status) (Fetched prefs) rLock = Returns (st, None) ->
  Prefs st = Some prefs
  /\ AuthURL st = ipnstate.AuthURL status
  /\ Self st = ipnstate.Self status
  /\ (ipnstate.BackendState status, BackendState st) ∈ knownTags.
Proof.
  intros H. apply GetState_returns in H
    as (status' & prefs' & lock & bs & [= <-] & [= <-] & _ & Htag & _ & ->).
  cbn [snapshot Prefs AuthURL Self BackendState].
  repeat split. now apply NewIPNStateFromString_ok_inv.
Qed.

(** X4. A bucket of [OwnedNodes] is never empty: it holds exactly the
    peers of rule 4 whose account name is its key, each as often as the
    status holds it. *)
Theorem X4_bucket_contents order status rPrefs rLock st k l :
  GetState order (Fetched status) rPrefs rLock = Returns (st, None) ->
  OwnedNodes st !! k = Some l ->
  l <> [] /\ l ≡ₚ bucketOf status k (peersOf status).
Proof.
  intros H. apply GetState_returns in H
    as (status' & prefs & lock & bs & [= <-] & _ & _ & _ & _ & ->).
  rewrite snapshot_bucket.
  destruct (bucketOf status k (peersSeen order status)) as [|p b] eqn:Hb;
    [discriminate|].
  intros [= <-].
  assert (sortNodes (p :: b) ≡ₚ bucketOf status k (peersOf status)) as Hp.
  { rewrite sortNodes_perm, <- Hb. unfold bucketOf.
    apply filter_perm, peersSeen_perm. }
  split; [|exact Hp].
  intros Hnil.
  pose proof (Permutation_length (sortNodes_perm (p :: b))) as Hlen.
  rewrite Hnil in Hlen. discriminate Hlen.
Qed.

(** X5. [TSVersion] holds no ['-']; the version of the status is
    [TSVersion] followed by nothing or by a rest that starts with
    ['-']. *)
Theorem X5_version_split order status rPrefs rLock st :
  GetState order (Fetched status) rPrefs rLock = Returns (st, None) ->
  hasByte "-" (TSVersion st) = false
  /\ exists rest,
       ipnstate.Version status = String.append (TSVersion st) rest
       /\ (rest = "" \/ exists r, rest = String "-" r).
Proof.
  intros H. apply GetState_returns in H
    as (status' & prefs & lock & bs & [= <-] & _ & _ & _ & _ & ->).
  cbn [snapshot TSVersion]. split; [apply before_hasByte|].
  induction (ipnstate.Version status) as [|a v IH].
  - exists "". split; [reflexivity|now left].
  - cbn [before]. destruct (Ascii.eqb_spec a "-") as [->|Hne].
    + exists (String "-" v). split; [reflexivity|]. right. now exists v.
    + destruct IH as (rest & Hv & Hrest). exists rest. split; [|exact Hrest].
      change (String a v = String a (String.append (before "-" v) rest)).
      now rewrite <- Hv.
Qed.

Lemma Superseded_GetState_returns order status rPrefs rLock st :
  Superseded.GetState order (Fetched status) rPrefs rLock = Returns (st, None) ->
  exists prefs lock bs,
    rPrefs = Fetched prefs /\ rLock = Fetched lock
    /\ NewIPNStateFromString (ipnstate.BackendState status) = (bs, None)
    /\ st = supersededSnapshot order status prefs lock bs.
Proof.
  destruct rPrefs as [prefs|e]; [|discriminate].
  destruct rLock as [lock|e]; [|discriminate].
  rewrite Superseded_GetState_spec.
  destruct (NewIPNStateFromString _) as [bs [err|]] eqn:Htag; [discriminate|].
  intros [= <-]. exists prefs, lock, bs. repeat split; auto.
Qed.

Lemma ownedSeen_some_perm order1 order2 status k :
  is_Some (ownedSeen order1 status !! k)
  <-> is_Some (ownedSeen order2 status !! k).
Proof.
  rewrite !ownedSeen_lookup.
  assert (bucketOf status k (peersSeen order1 status)
          ≡ₚ bucketOf status k (peersSeen order2 status)) as Hq.
  { unfold bucketOf. apply filter_perm. now rewrite !peersSeen_perm. }
  destruct (bucketOf status k (peersSeen order1 status)) as [|a1 b1],
    (bucketOf status k (peersSeen order2 status)) as [|a2 b2].
  - reflexivity.
  - now apply Permutation_nil_cons in Hq.
  - symmetry in Hq. now apply Permutation_nil_cons in Hq.
  - split; intros _; eexists; reflexivity.
Qed.

(** X6. Two runs of [GetState] on the same input end alike: both panic,
    or both return the same error with the zero [State], or both return
    a snapshot; the two snapshots have the same fields up to the order
    of the peers inside [ExitNodes], [MyNodes], [TaggedNodes] and each
    bucket of [OwnedNodes] (and up to [CurrentExitNodeName], which is
    read off that order). *)
Theorem X6_runs_agree_up_to_order order1 order2 rStatus rPrefs rLock :
  match GetState order1 rStatus rPrefs rLock,
        GetState order2 rStatus rPrefs rLock with
  | Returns (st1, None), Returns (st2, None) => sameUpToOrder st1 st2
  | Returns (st1, Some e1), Returns (st2, Some e2) => st1 = st2 /\ e1 = e2
  | Panics m1, Panics m2 => m1 = m2
  | _, _ => False
  end.
Proof.
  destruct rStatus as [status|e]; [|now split].
  destruct rPrefs as [prefs|e]; [|now split].
  destruct rLock as [lock|e]; [|now split].
  rewrite !GetState_spec.
  destruct (NewIPNStateFromString _) as [bs [err|]]; [now split|].
  assert (peersSeen order1 status ≡ₚ peersSeen order2 status) as Hp
    by now rewrite !peersSeen_perm.
  rewrite (existsb_perm _ _ _ Hp).
  destruct (existsb _ _); [reflexivity|].
  unfold sameUpToOrder.
  cbn [snapshot Prefs BackendState TSVersion AuthURL User Self LockKey
       IsLockedOut ExitNodes MyNodes TaggedNodes OwnedNodeKeys OwnedNodes
       CurrentExitNode RxBytes TxBytes].
  repeat split.
  - apply sum64_perm. now apply (fmap_Permutation ipnstate.RxBytes).
  - apply sum64_perm. now apply (fmap_Permutation ipnstate.TxBytes).
  - apply sorted_strings_unique; try apply slices_Sort_sorted.
    rewrite !slices_Sort_perm, !rangeOwnedNodes_perm.
    apply keys_perm. intros k. apply ownedSeen_some_perm.
  - rewrite !sortNodes_perm. now apply filter_perm.
  - rewrite !sortNodes_perm. now apply filter_perm.
  - rewrite !sortNodes_perm. now apply filter_perm.
  - intros k. rewrite !lookup_fmap, !ownedSeen_lookup. unfold bucketOf.
    pose proof (filter_perm
      (fun p => toOwnedNodes status p
                && String.eqb (accountNameOf status p) k) _ _ Hp) as Hq.
    destruct (List.filter _ (peersSeen order1 status)) as [|a1 b1],
      (List.filter _ (peersSeen order2 status)) as [|a2 b2]; cbn.
    + exact I.
    + now apply Permutation_nil_cons in Hq.
    + symmetry in Hq. now apply Permutation_nil_cons in Hq.
    + now rewrite !sortNodes_perm.
Qed.


(** X8. [getSortedExitNodes] gives the empty slice for a nil status;
    otherwise its result is in non-decreasing order of display name and
    holds exactly the exit node options among the peers of the status,
    each as often as the status holds it.  It is the [SortedExitNodes]
    of the superseded snapshot. *)
Theorem X8_sorted_exit_nodes order :
  getSortedExitNodesOf order None = []
  /\ forall status,
       StronglySorted nameLe (getSortedExitNodesOf order (Some status))
       /\ getSortedExitNodesOf order (Some status)
          ≡ₚ List.filter ipnstate.ExitNodeOption (peersOf status)
       /\ forall rPrefs rLock st,
            Superseded.GetState order (Fetched status) rPrefs rLock
            = Returns (st, None) ->
            Superseded.SortedExitNodes st
            = getSortedExitNodesOf order (Some status).
Proof.
  split; [reflexivity|]. intros status.
  change (getSortedExitNodesOf order (Some status))
    with (sortNodes (List.filter ipnstate.ExitNodeOption
                       (peersSeen order status))).
  split; [apply sortNodes_sorted|]. split.
  - rewrite sortNodes_perm. apply filter_perm, peersSeen_perm.
  - intros rPrefs rLock st H.
    apply Superseded_GetState_returns in H
      as (prefs & lock & bs & _ & _ & _ & ->).
    reflexivity.
Qed.


(** X10. In the superseded snapshot too, [RxBytes] and [TxBytes] are
    the sums over all peers of the status in [int64] arithmetic,
    whatever the order of the loop; they are the exact sums when those
    fit. *)
Theorem X10_superseded_traffic order status rPrefs rLock st :
  Superseded.GetState order (Fetched status) rPrefs rLock = Returns (st, None) ->
  let rx := sumZ (ipnstate.RxBytes <$> peersOf status) in
  let tx := sumZ (ipnstate.TxBytes <$> peersOf status) in
  Superseded.RxBytes st = wrap64 rx /\ Superseded.TxBytes st = wrap64 tx
  /\ (- 2 ^ 63 <= rx < 2 ^ 63 -> Superseded.RxBytes st = rx)
  /\ (- 2 ^ 63 <= tx < 2 ^ 63 -> Superseded.TxBytes st = tx).
Proof.
  intros H. apply Superseded_GetState_returns in H
    as (prefs & lock & bs & _ & _ & _ & ->).
  cbn [supersededSnapshot Superseded.RxBytes Superseded.TxBytes]. cbv zeta.
  assert ((rangePeerAgain order (ipnstate.Peer status)).*2
          ≡ₚ peersOf status) as Hp.
  { unfold peersOf. now rewrite rangePeerAgain_perm. }
  rewrite !sum64_wrap by reflexivity. rewrite !Z.add_0_l.
  rewrite (sumZ_perm
             (map ipnstate.RxBytes
                (rangePeerAgain order (ipnstate.Peer status)).*2)
             (ipnstate.RxBytes <$> peersOf status))
    by (now apply fmap_Permutation).
  rewrite (sumZ_perm
             (map ipnstate.TxBytes
                (rangePeerAgain order (ipnstate.Peer status)).*2)
             (ipnstate.TxBytes <$> peersOf status))
    by (now apply fmap_Permutation).
  repeat split; try reflexivity; intros; now apply wrap64_small.
Qed.

End MoreProperties.

Section ClientProperties.
Context `{Lib : Ts.Library} `{Imp : Imports}.
Variables (d : Ts.Daemon) (w : Ts.World d).

Lemma run_ofOutcome_at {R} (o : outcome R) (w' : Ts.World d) :
  Ts.run d (Ts.ofOutcome o) w'
  = {| Ts.result := o; Ts.after := w'; Ts.calls := [] |}.
Proof. now destruct o. Qed.

(** X11. [GetState] asks the daemon for the status, the preferences and
    the lock status, in this order, stops at the first of them that
    fails, and asks nothing else: it never edits, starts, pings or logs
    out.  What it returns is [GetState] above on the three answers. *)
Theorem X11_GetState_fetches order :
  let s := Ts.onStatus d w in
  let p := Ts.onGetPrefs d s.2 in
  let l := Ts.onNetworkLockStatus d p.2 in
  let r := Ts.run d (Ts.GetState order) w in
  Ts.result r = GetState order s.1 p.1 l.1
  /\ forallb Ts.readOnly (Ts.calls r) = true
  /\ match s.1, p.1 with
     | FetchFailed _, _ =>
         Ts.calls r = [Ts.CallStatus] /\ Ts.after r = s.2
     | Fetched _, FetchFailed _ =>
         Ts.calls r = [Ts.CallStatus; Ts.CallGetPrefs] /\ Ts.after r = p.2
     | Fetched _, Fetched _ =>
         Ts.calls r
         = [Ts.CallStatus; Ts.CallGetPrefs; Ts.CallNetworkLockStatus]
         /\ Ts.after r = l.2
     end.
Proof.
  cbv zeta. unfold Ts.GetState, Ts.Status, Ts.Prefs, Ts.LockStatus.
  cbn [mbind Ts.Client_bind Ts.andThen Ts.run].
  destruct (Ts.onStatus d w) as [[status|e1] w1]; cbn [fst snd];
    cbn [mbind Ts.Client_bind Ts.andThen Ts.run];
    [|repeat split].
  destruct (Ts.onGetPrefs d w1) as [[prefs|e2] w2]; cbn [fst snd];
    cbn [mbind Ts.Client_bind Ts.andThen Ts.run];
    [|repeat split].
  destruct (Ts.onNetworkLockStatus d w2) as [[lock|e3] w3]; cbn [fst snd];
    cbn [mbind Ts.Client_bind Ts.andThen Ts.run];
    [|repeat split].
  rewrite run_ofOutcome_at. repeat split.
Qed.

(** X12. [StartLoginInteractive] always begins with [Start] on empty
    options.  When [Start] fails its error is returned and the login is
    not asked for; when it succeeds the login is asked for and its
    answer returned. *)
Theorem X12_login_after_start :
  let a := Ts.onStart d Ts.Options_zero w in
  let r := Ts.run d Ts.StartLoginInteractive w in
  head (Ts.calls r) = Some (Ts.CallStart Ts.Options_zero)
  /\ (forall e, a.1 = Some e ->
        Ts.result r = Returns (Some e)
        /\ Ts.calls r = [Ts.CallStart Ts.Options_zero]
        /\ Ts.after r = a.2)
  /\ (a.1 = None ->
      let b := Ts.onStartLoginInteractive d a.2 in
      Ts.result r = Returns b.1
      /\ Ts.calls r
         = [Ts.CallStart Ts.Options_zero; Ts.CallStartLoginInteractive]
      /\ Ts.after r = b.2).
Proof.
  cbv zeta. unfold Ts.StartLoginInteractive.
  cbn [mbind Ts.Client_bind Ts.andThen Ts.run].
  destruct (Ts.onStart d Ts.Options_zero w) as [[e|] w1]; cbn [fst snd].
  - cbn. split; [reflexivity|]. split; [|discriminate].
    intros e' [= <-]. repeat split.
  - cbn. split; [reflexivity|]. split; [discriminate|].
    intros _. repeat split.
Qed.

(** X13. [SetExitNode] on a nil peer sends one edit, of the cleared
    preferences, without asking for the status.  On a peer it asks for
    the status first: if that fails the error is returned and nothing
    is edited; if the peer has no address it panics, nothing edited;
    otherwise it sends one edit of what [SetExitNodeIP] left in the
    preferences, whether or not [SetExitNodeIP] reported an error, and
    returns the error of the edit.  It never sends more than one edit,
    and an edit it sends touches the exit node only. *)
Theorem X13_SetExitNode_cases (peer : option Ts.PeerWithIPs) :
  let r := Ts.run d (Ts.SetExitNode peer) w in
  (peer = None ->
     let mp := Ts.exitNodeEdit (Ts.ClearExitNode Ts.Prefs_zero) in
     let a := Ts.onEditPrefs d mp w in
     Ts.calls r = [Ts.CallEditPrefs mp]
     /\ Ts.result r = Returns (errorOf a.1) /\ Ts.after r = a.2)
  /\ (forall p, peer = Some p ->
        let s := Ts.onStatus d w in
        match s.1 with
        | FetchFailed e =>
            Ts.result r = Returns (Some e)
            /\ Ts.calls r = [Ts.CallStatus] /\ Ts.after r = s.2
        | Fetched status =>
            match Ts.TailscaleIPs p with
            | [] =>
                Ts.result r = Panics Ts.indexOutOfRange
                /\ Ts.calls r = [Ts.CallStatus] /\ Ts.after r = s.2
            | ip :: _ =>
                let set :=
                  Ts.SetExitNodeIP Ts.Prefs_zero (Ts.Addr_String ip) status in
                let a := Ts.onEditPrefs d (Ts.exitNodeEdit set.1) s.2 in
                Ts.calls r
                = [Ts.CallStatus; Ts.CallEditPrefs (Ts.exitNodeEdit set.1)]
                /\ Ts.result r = Returns (errorOf a.1)
                /\ Ts.after r = a.2
            end
        end)
  /\ (length (List.filter Ts.isEditPrefs (Ts.calls r)) <= 1)%nat
  /\ Forall exitNodeOnly (Ts.calls r).
Proof.
  cbv zeta. unfold Ts.SetExitNode, Ts.sendExitNode.
  destruct peer as [p|].
  - cbn [mbind Ts.Client_bind Ts.andThen Ts.run].
    destruct (Ts.onStatus d w) as [[status|e] w1]; cbn [fst snd].
    + destruct (Ts.TailscaleIPs p) as [|ip ips] eqn:Hips.
      * cbn. split; [discriminate|]. split.
        { intros p' [= <-]. rewrite Hips. repeat split. }
        split; [lia|]. repeat constructor.
      * cbn [mbind Ts.Client_bind Ts.andThen Ts.run].
        destruct (Ts.onEditPrefs d _ w1) as [[prefs'|e'] w2] eqn:Hedit;
          cbn; (split; [discriminate|]);
          (split; [intros p' [= <-]; rewrite Hips; cbn; rewrite Hedit;
                   repeat split|]);
          (split; [lia|]); repeat constructor.
    + cbn. split; [discriminate|]. split.
      { intros p' [= <-]. repeat split. }
      split; [lia|]. repeat constructor.
  - cbn [mbind Ts.Client_bind Ts.andThen Ts.run].
    destruct (Ts.onEditPrefs d _ w) as [[prefs'|e'] w2] eqn:Hedit; cbn;
      (split; [intros _; repeat split|]);
      (split; [discriminate|]); (split; [lia|]); repeat constructor.
Qed.

(** X14. [PingPeer] panics on a nil peer and on a peer without
    addresses, and then asks the daemon nothing.  Otherwise it sends
    one disco ping to the first address of the peer and returns the
    answer as it is. *)
Theorem X14_PingPeer_first_address (peer : option Ts.PeerWithIPs) :
  let r := Ts.run d (Ts.PingPeer peer) w in
  (peer = None -> Ts.result r = Panics nilDeref /\ Ts.calls r = [])
  /\ (forall p, peer = Some p -> Ts.TailscaleIPs p = [] ->
        Ts.result r = Panics Ts.indexOutOfRange /\ Ts.calls r = [])
  /\ (forall p ip rest, peer = Some p -> Ts.TailscaleIPs p = ip :: rest ->
        let a := Ts.onPing d ip Ts.PingDisco w in
        Ts.calls r = [Ts.CallPing ip Ts.PingDisco]
        /\ Ts.result r = Returns a.1 /\ Ts.after r = a.2).
Proof.
  cbv zeta. unfold Ts.PingPeer. destruct peer as [p|].
  - split; [discriminate|]. split.
    + intros p' [= <-] ->. now split.
    + intros p' ip rest [= <-] ->. cbn. repeat split.
  - split; [now split|]. split; [discriminate|]. discriminate.
Qed.

(** X15. [EditPrefs] drops the preferences the daemon answers with and
    returns its error only.  [Up] and [Down] each send one edit whose
    mask is [WantRunningSet] alone, with [WantRunning] true and false;
    [CanWrite] sends one edit that sets no field, and is true exactly
    when the daemon accepts it. *)
Theorem X15_edit_wrappers :
  (forall mp,
     let a := Ts.onEditPrefs d mp w in
     let r := Ts.run d (Ts.EditPrefs mp) w in
     Ts.result r = Returns (errorOf a.1)
     /\ Ts.calls r = [Ts.CallEditPrefs mp] /\ Ts.after r = a.2)
  /\ Ts.Up = Ts.EditPrefs (Ts.wantRunning true)
  /\ Ts.Down = Ts.EditPrefs (Ts.wantRunning false)
  /\ (forall v,
        ipn.WantRunning (Ts.MPrefs (Ts.wantRunning v)) = v
        /\ Ts.WantRunningSet (Ts.wantRunning v) = true
        /\ Ts.ControlURLSet (Ts.wantRunning v) = false
        /\ Ts.RouteAllSet (Ts.wantRunning v) = false
        /\ Ts.ExitNodeIDSet (Ts.wantRunning v) = false
        /\ Ts.ExitNodeIPSet (Ts.wantRunning v) = false
        /\ Ts.CorpDNSSet (Ts.wantRunning v) = false
        /\ Ts.HostnameSet (Ts.wantRunning v) = false)
  /\ (let a := Ts.onEditPrefs d Ts.MaskedPrefs_zero w in
      let r := Ts.run d Ts.CanWrite w in
      Ts.calls r = [Ts.CallEditPrefs Ts.MaskedPrefs_zero]
      /\ Ts.after r = a.2
      /\ Ts.result r
         = Returns match a.1 with
                   | Fetched _ => true
                   | FetchFailed _ => false
                   end).
Proof.
  cbv zeta. split; [|split; [reflexivity|split; [reflexivity|split]]].
  - intros mp. unfold Ts.EditPrefs.
    cbn [mbind Ts.Client_bind Ts.andThen Ts.run].
    destruct (Ts.onEditPrefs d mp w) as [[prefs'|e'] w2]; cbn; repeat split.
  - intros v. repeat split.
  - unfold Ts.CanWrite, Ts.EditPrefs.
    cbn [mbind Ts.Client_bind Ts.andThen Ts.run].
    destruct (Ts.onEditPrefs d Ts.MaskedPrefs_zero w) as [[prefs'|e'] w2];
      cbn; repeat split.
Qed.

End ClientProperties.

(** ** Further statements at sample inputs *)

(** The superseded variant on the sample. *)
Definition supersededSample : Superseded.State :=
  supersededSnapshot (Imp := shortSlices) listedOrder sampleStatus
    samplePrefs sampleLock ipn.Running.

Lemma superseded_sample_run :
  Superseded.GetState (Imp := shortSlices) listedOrder (Fetched sampleStatus)
    (Fetched samplePrefs) (Fetched sampleLock)
  = Returns (supersededSample, None).
Proof. vm_compute. reflexivity. Defined.

(** X1 at the tag of a running backend. *)
Lemma X1_tags_one_to_one_witness :
  NewIPNStateFromString "Running" = (ipn.Running, None)
  /\ ("Running", ipn.Running) ∈ knownTags.
Proof.
  split; [reflexivity|].
  exact (proj1 (proj1 X1_tags_one_to_one "Running" ipn.Running) eq_refl).
Defined.

(** X3 at the sample. *)
Lemma X3_passed_through_witness :
  GetState (Imp := shortSlices) listedOrder (Fetched sampleStatus)
    (Fetched samplePrefs) (Fetched sampleLock)
  = Returns (sampleState, None)
  /\ Prefs sampleState = Some samplePrefs
  /\ Self sampleState = Some sampleSelf.
Proof.
  destruct (X3_passed_through (Imp := shortSlices) listedOrder sampleStatus
              samplePrefs (Fetched sampleLock) sampleState sample_run)
    as (Hp & _ & Hs & _).
  split; [exact sample_run|]. split; [exact Hp|exact Hs].
Defined.

(** X4 at the sample: the bucket of Bob holds his two machines. *)
Lemma X4_bucket_contents_witness :
  exists l,
    GetState (Imp := shortSlices) listedOrder (Fetched sampleStatus)
      (Fetched samplePrefs) (Fetched sampleLock)
    = Returns (sampleState, None)
    /\ OwnedNodes sampleState !! "Bob" = Some l
    /\ map ipnstate.ID l = ["n5"; "n6"]
    /\ l <> [] /\ l ≡ₚ bucketOf sampleStatus "Bob" (peersOf sampleStatus).
Proof.
  assert (exists l, OwnedNodes sampleState !! "Bob" = Some l
                    /\ map ipnstate.ID l = ["n5"; "n6"]) as (l & Hl & Hids).
  { eexists. split; vm_compute; reflexivity. }
  exists l. split; [exact sample_run|]. split; [exact Hl|].
  split; [exact Hids|].
  exact (X4_bucket_contents (Imp := shortSlices) listedOrder sampleStatus
           (Fetched samplePrefs) (Fetched sampleLock) sampleState "Bob" l
           sample_run Hl).
Defined.

(** X5 at the sample. *)
Lemma X5_version_split_witness :
  GetState (Imp := shortSlices) listedOrder (Fetched sampleStatus)
    (Fetched samplePrefs) (Fetched sampleLock)
  = Returns (sampleState, None)
  /\ hasByte "-" (TSVersion sampleState) = false.
Proof.
  split; [exact sample_run|].
  exact (proj1 (X5_version_split (Imp := shortSlices) listedOrder
                  sampleStatus (Fetched samplePrefs) (Fetched sampleLock)
                  sampleState sample_run)).
Defined.


(** X8 at the sample. *)
Lemma X8_sorted_exit_nodes_witness :
  Superseded.GetState (Imp := shortSlices) listedOrder (Fetched sampleStatus)
    (Fetched samplePrefs) (Fetched sampleLock)
  = Returns (supersededSample, None)
  /\ Superseded.SortedExitNodes supersededSample
     = getSortedExitNodesOf (Imp := shortSlices) listedOrder
         (Some sampleStatus)
  /\ map ipnstate.ID (Superseded.SortedExitNodes supersededSample)
     = ["n4"; "n3"].
Proof.
  split; [exact superseded_sample_run|]. split; [|reflexivity].
  exact (proj2 (proj2 (proj2 (X8_sorted_exit_nodes (Imp := shortSlices)
                                listedOrder) sampleStatus))
           (Fetched samplePrefs) (Fetched sampleLock) supersededSample
           superseded_sample_run).
Defined.


(** X10 at the sample. *)
Lemma X10_superseded_traffic_witness :
  Superseded.GetState (Imp := shortSlices) listedOrder (Fetched sampleStatus)
    (Fetched samplePrefs) (Fetched sampleLock)
  = Returns (supersededSample, None)
  /\ - 2 ^ 63 <= sumZ (ipnstate.RxBytes <$> peersOf sampleStatus) < 2 ^ 63
  /\ Superseded.RxBytes supersededSample
     = sumZ (ipnstate.RxBytes <$> peersOf sampleStatus).
Proof.
  assert (- 2 ^ 63 <= sumZ (ipnstate.RxBytes <$> peersOf sampleStatus) < 2 ^ 63)
    as Hr by (vm_compute; split; [discriminate|reflexivity]).
  split; [exact superseded_sample_run|]. split; [exact Hr|].
  destruct (X10_superseded_traffic (Imp := shortSlices) listedOrder
              sampleStatus (Fetched samplePrefs) (Fetched sampleLock)
              supersededSample superseded_sample_run) as (_ & _ & Hrx & _).
  exact (Hrx Hr).
Defined.

(** X12 at a daemon that refuses [Start]. *)
Lemma X12_login_after_start_witness :
  (Ts.onStart downDaemon Ts.Options_zero 0%nat).1 = Some refused
  /\ Ts.result (Ts.run downDaemon Ts.StartLoginInteractive 0%nat)
     = Returns (Some refused)
  /\ Ts.calls (Ts.run downDaemon Ts.StartLoginInteractive 0%nat)
     = [Ts.CallStart Ts.Options_zero].
Proof.
  destruct (proj1 (proj2 (X12_login_after_start downDaemon 0%nat))
              refused eq_refl) as (Hres & Hcalls & _).
  split; [reflexivity|]. split; [exact Hres|exact Hcalls].
Defined.

(** X13 at a peer with an address, where [SetExitNodeIP] reports an
    error and the daemon accepts the edit: the error is lost. *)
Lemma X13_SetExitNode_cases_witness :
  (Ts.SetExitNodeIP (Library := sampleLibrary) Ts.Prefs_zero
     "100.64.0.3" sampleStatus).2 <> None
  /\ Ts.result (Ts.run sampleDaemon
                  (Ts.SetExitNode (Lib := sampleLibrary)
                     (Some samplePeerWithIPs)) 0%nat)
     = Returns None
  /\ Ts.calls (Ts.run sampleDaemon
                 (Ts.SetExitNode (Lib := sampleLibrary)
                    (Some samplePeerWithIPs)) 0%nat)
     = [Ts.CallStatus; Ts.CallEditPrefs (Ts.exitNodeEdit Ts.Prefs_zero)].
Proof.
  pose proof (proj1 (proj2 (X13_SetExitNode_cases (Lib := sampleLibrary)
                              sampleDaemon 0%nat (Some samplePeerWithIPs)))
                samplePeerWithIPs eq_refl) as H.
  cbn in H. destruct H as (Hcalls & Hres & _).
  split; [discriminate|]. split; [exact Hres|exact Hcalls].
Defined.

(** X14 at a peer without addresses. *)
Lemma X14_PingPeer_first_address_witness :
  Ts.TailscaleIPs
    {| Ts.peerStatus := sampleSelf; Ts.TailscaleIPs := [] |} = []
  /\ Ts.result
       (Ts.run sampleDaemon
          (Ts.PingPeer
             (Some {| Ts.peerStatus := sampleSelf; Ts.TailscaleIPs := [] |}))
          0%nat)
     = Panics Ts.indexOutOfRange.
Proof.
  split; [reflexivity|].
  exact (proj1 (proj1 (proj2 (X14_PingPeer_first_address sampleDaemon 0%nat
                                (Some {| Ts.peerStatus := sampleSelf;
                                         Ts.TailscaleIPs := [] |})))
                  _ eq_refl eq_refl)).
Defined.
